(** * Token codec, authenticator and access guard of the HRIS+ERP backend

    Shallow embedding of the authentication core of [main.py]
    ([issue_token], [parse_token], [get_current_user], [login], the
    admin guard of [list_users], [seed_users]) together with the parts
    of the Python runtime those functions lean on: [str.encode],
    [bytes.hex], [bytes.fromhex], [bytes.decode], [str.split] and the
    [dict.get] lookups on loosely typed MongoDB documents. *)

From Stdlib Require Import ZArith List Bool Lia String Ascii DecimalString.
From stdpp Require Import base option list gmap strings.

Local Open Scope Z_scope.

(** ** Python strings and byte strings

    A Python [str] is a sequence of code points, a [bytes] object a
    sequence of integers below 256. *)

Definition codepoint := Z.
Definition pystr := list codepoint.
Definition pybytes := list Z.

(** ASCII literals of the source, as code-point sequences. *)
Definition lit (s : string) : pystr :=
  map (fun a => Z.of_N (N_of_ascii a)) (list_ascii_of_string s).

Definition COLON : codepoint := 58.
Definition AT_SIGN : codepoint := 64.
Definition SPACE : codepoint := 32.

Definition is_byte (b : Z) : Prop := 0 <= b < 256.

(** A code point that [str.encode()] accepts: a Unicode scalar value. *)
Definition is_scalar (c : codepoint) : Prop :=
  0 <= c < 55296 \/ 57344 <= c < 1114112.

(** ** [str.encode()]: UTF-8, strict *)

Definition utf8_encode_cp (c : codepoint) : option pybytes :=
  if c <? 0 then None
  else if c <? 128 then Some [c]
  else if c <? 2048 then Some [192 + c / 64; 128 + c mod 64]
  else if c <? 65536 then
    if (55296 <=? c) && (c <=? 57343) then None
    else Some [224 + c / 4096; 128 + (c / 64) mod 64; 128 + c mod 64]
  else if c <? 1114112 then
    Some [240 + c / 262144; 128 + (c / 4096) mod 64;
          128 + (c / 64) mod 64; 128 + c mod 64]
  else None.

Fixpoint utf8_encode (s : pystr) : option pybytes :=
  match s with
  | [] => Some []
  | c :: s' =>
      match utf8_encode_cp c, utf8_encode s' with
      | Some bs, Some rest => Some (bs ++ rest)
      | _, _ => None
      end
  end.

(** ** [bytes.decode()]: UTF-8, strict

    Over-long forms, surrogates, values above U+10FFFF, stray
    continuation bytes and truncated sequences are all rejected. *)

Definition is_cont (b : Z) : bool := (128 <=? b) && (b <=? 191).

Fixpoint utf8_decode (bs : pybytes) : option pystr :=
  match bs with
  | [] => Some []
  | b0 :: r0 =>
      if (0 <=? b0) && (b0 <? 128) then
        match utf8_decode r0 with
        | Some s => Some (b0 :: s)
        | None => None
        end
      else if (194 <=? b0) && (b0 <=? 223) then
        match r0 with
        | b1 :: r1 =>
            if is_cont b1 then
              match utf8_decode r1 with
              | Some s => Some ((b0 - 192) * 64 + (b1 - 128) :: s)
              | None => None
              end
            else None
        | _ => None
        end
      else if (224 <=? b0) && (b0 <=? 239) then
        match r0 with
        | b1 :: (b2 :: r2) =>
            let c := (b0 - 224) * 4096 + (b1 - 128) * 64 + (b2 - 128) in
            if is_cont b1 && is_cont b2 && (2048 <=? c)
               && negb ((55296 <=? c) && (c <=? 57343)) then
              match utf8_decode r2 with
              | Some s => Some (c :: s)
              | None => None
              end
            else None
        | _ => None
        end
      else if (240 <=? b0) && (b0 <=? 244) then
        match r0 with
        | b1 :: (b2 :: (b3 :: r3)) =>
            let c := (b0 - 240) * 262144 + (b1 - 128) * 4096
                     + (b2 - 128) * 64 + (b3 - 128) in
            if is_cont b1 && is_cont b2 && is_cont b3
               && (65536 <=? c) && (c <? 1114112) then
              match utf8_decode r3 with
              | Some s => Some (c :: s)
              | None => None
              end
            else None
        | _ => None
        end
      else None
  end.

(** ** [bytes.hex()] and [bytes.fromhex()] *)

Definition hexdigit (n : Z) : codepoint :=
  if n <? 10 then 48 + n else 87 + n.

Fixpoint hex (bs : pybytes) : pystr :=
  match bs with
  | [] => []
  | b :: bs' => hexdigit (b / 16) :: hexdigit (b mod 16) :: hex bs'
  end.

(** Value of a hexadecimal digit; both letter cases are accepted. *)
Definition hexval (c : codepoint) : option Z :=
  if (48 <=? c) && (c <=? 57) then Some (c - 48)
  else if (97 <=? c) && (c <=? 102) then Some (c - 87)
  else if (65 <=? c) && (c <=? 70) then Some (c - 55)
  else None.

(** ASCII whitespace in the sense of [bytes.fromhex]: space, tab,
    line feed, vertical tab, form feed, carriage return. *)
Definition is_ascii_space (c : codepoint) : bool :=
  (c =? 32) || ((9 <=? c) && (c <=? 13)).

(** [bytes.fromhex]: whitespace is skipped between bytes, never inside
    a pair of digits; anything else that is not a digit is an error. *)
Fixpoint fromhex (s : pystr) : option pybytes :=
  match s with
  | [] => Some []
  | c :: s' =>
      if is_ascii_space c then fromhex s'
      else
        match hexval c, s' with
        | Some top, d :: s'' =>
            match hexval d, fromhex s'' with
            | Some bot, Some rest => Some (top * 16 + bot :: rest)
            | _, _ => None
            end
        | _, _ => None
        end
  end.

(** ** [str.split]

    With a separator and [maxsplit = 1]: the text before the first
    occurrence and the text after it, or the whole string alone. *)
Fixpoint split_first (sep : codepoint) (s : pystr) : option (pystr * pystr) :=
  match s with
  | [] => None
  | c :: s' =>
      if c =? sep then Some ([], s')
      else
        match split_first sep s' with
        | Some (a, b) => Some (c :: a, b)
        | None => None
        end
  end.

(** Whitespace in the sense of [str.split()] and [str.isspace]. *)
Definition is_space (c : codepoint) : bool :=
  ((9 <=? c) && (c <=? 13)) || ((28 <=? c) && (c <=? 32))
  || (c =? 133) || (c =? 160) || (c =? 5760)
  || ((8192 <=? c) && (c <=? 8202))
  || (c =? 8232) || (c =? 8233) || (c =? 8239) || (c =? 8287)
  || (c =? 12288).

(** [str.split()] without arguments: maximal runs of non-whitespace.
    [cur] holds the segment being read, most recent character first. *)
Fixpoint split_ws_from (cur : pystr) (s : pystr) : list pystr :=
  match s with
  | [] => match cur with [] => [] | _ => [rev cur] end
  | c :: s' =>
      if is_space c then
        match cur with
        | [] => split_ws_from [] s'
        | _ => rev cur :: split_ws_from [] s'
        end
      else split_ws_from (c :: cur) s'
  end.

Definition split_ws (s : pystr) : list pystr := split_ws_from [] s.

(** A string without any whitespace character. *)
Definition no_space (s : pystr) : Prop := Forall (fun c => is_space c = false) s.

(** Prepend a decoded code point to the decoding of the rest. *)
Definition cons_opt (c : codepoint) (o : option pystr) : option pystr :=
  match o with Some s => Some (c :: s) | None => None end.

(** ** Loosely typed values

    A MongoDB document reaches the code as a Python [dict] whose
    values are not constrained by any schema.  The values modelled are
    [None], booleans, integers and strings. *)

Inductive pyval :=
  | VNone
  | VBool (b : bool)
  | VInt (n : Z)
  | VStr (s : pystr).

#[global] Instance pyval_eq_dec : EqDecision pyval.
Proof. solve_decision. Defined.

(** Truth value of an object, as used by [not x] and [if x]. *)
Definition truthy (v : pyval) : bool :=
  match v with
  | VNone => false
  | VBool b => b
  | VInt n => negb (n =? 0)
  | VStr s => match s with [] => false | _ => true end
  end.

(** [v is True]: identity with the singleton [True]. *)
Definition is_True (v : pyval) : bool :=
  match v with VBool true => true | _ => false end.

(** [v != s] for a string [s]: only an equal string compares equal. *)
Definition ne_str (v : pyval) (s : pystr) : bool :=
  negb (bool_decide (v = VStr s)).

(** [str(v)], the text an f-string inserts for [v]. *)
Definition py_str (v : pyval) : pystr :=
  match v with
  | VNone => lit "None"
  | VBool true => lit "True"
  | VBool false => lit "False"
  | VInt n => lit (DecimalString.NilZero.string_of_int (Z.to_int n))
  | VStr s => s
  end.

Abbreviation Document := (gmap string pyval).

(** [d.get(k)] and [d.get(k, dflt)]. *)
Definition dict_get (d : Document) (k : string) : pyval :=
  default VNone (d !! k).
Definition dict_get_or (d : Document) (k : string) (dflt : pyval) : pyval :=
  default dflt (d !! k).

(** ** The credential store

    [db["user"].find_one({"email": e})]: the first document of the
    collection whose [email] field is the string [e]. *)
Fixpoint find_one (users : list Document) (email : pystr) : option Document :=
  match users with
  | [] => None
  | d :: rest =>
      if bool_decide (d !! "email"%string = Some (VStr email)) then Some d
      else find_one rest email
  end.

Fixpoint count_documents (users : list Document) (email : pystr) : nat :=
  match users with
  | [] => O
  | d :: rest =>
      if bool_decide (d !! "email"%string = Some (VStr email))
      then S (count_documents rest email)
      else count_documents rest email
  end.

(** The module-level [db]: [None] when no database is configured,
    otherwise the documents of [db["user"]] in natural order. *)
Definition Database := option (list Document).

(** [not user] for the result of [find_one]: [None] or an empty dict. *)
Definition not_user (user : option Document) : bool :=
  match user with
  | None => true
  | Some u => bool_decide (dom u = (∅ : gset string))
  end.

(** ** Outcomes *)

Record HTTPException := mkHTTP { status_code : Z; detail : string }.

Inductive exn :=
  | HTTP (e : HTTPException)
  | IndexError
  | TypeError
  | UnicodeEncodeError
  | ValidationError
  | RequestValidationError
  | DuplicateKeyError.

Inductive result (A : Type) :=
  | Return (a : A)
  | Raise (e : exn).
Arguments Return {A} a.
Arguments Raise {A} e.

Definition bind {A B} (m : result A) (k : A -> result B) : result B :=
  match m with
  | Return a => k a
  | Raise e => Raise e
  end.

Notation "'do' x <- m ; k" := (bind m (fun x => k))
  (at level 10, x name, m at level 100, k at level 200).

(** The error kinds of the specification, as the exceptions the
    source raises for them. *)
Definition MissingCredentials := mkHTTP 401 "Missing Authorization header".
Definition InvalidToken := mkHTTP 401 "Invalid token".
Definition Unauthorized := mkHTTP 401 "User not active or not found".
Definition InvalidCredentials := mkHTTP 401 "Invalid credentials".
Definition AccountInactive := mkHTTP 403 "User is inactive".
Definition Forbidden := mkHTTP 403 "Admin only".
Definition DatabaseNotConfigured := mkHTTP 500 "Database not configured".

(** ** Token codec *)

(** [issue_token(email, role)]: hexadecimal text of the UTF-8 bytes of
    [f"{role}:{email}"]. *)
Definition issue_token (email : pystr) (role : pyval) : result pystr :=
  let raw := py_str role ++ COLON :: email in
  match utf8_encode raw with
  | Some bs => Return (hex bs)
  | None => Raise UnicodeEncodeError
  end.

Record TokenPayload := mkPayload { p_role : pystr; p_email : pystr }.

(** The body of the [try] block of [parse_token]; [None] stands for
    any exception raised inside it. *)
Definition parse_token_try (token : pystr) : option TokenPayload :=
  match fromhex token with
  | Some bs =>
      match utf8_decode bs with
      | Some decoded =>
          match split_first COLON decoded with
          | Some (role, email) => Some (mkPayload role email)
          | None => None
          end
      | None => None
      end
  | None => None
  end.

Definition parse_token (token : pystr) : result TokenPayload :=
  match parse_token_try token with
  | Some payload => Return payload
  | None => Raise (HTTP InvalidToken)
  end.

(** ** Access guard *)

Record CurrentUser := mkCurrent {
  cu_email : pystr;
  cu_role : pystr;
  cu_name : pyval
}.

(** [parts[-1]] *)
Definition last_part (parts : list pystr) : result pystr :=
  match last parts with
  | Some t => Return t
  | None => Raise IndexError
  end.

(** [db["user"]] *)
Definition db_user (db : Database) : result (list Document) :=
  match db with
  | Some users => Return users
  | None => Raise TypeError
  end.

Definition get_current_user (db : Database) (authorization : option pystr)
  : result CurrentUser :=
  match authorization with
  | None | Some [] => Raise (HTTP MissingCredentials)
  | Some header =>
      let parts := split_ws header in
      do token <- last_part parts;
      do payload <- parse_token token;
      do users <- db_user db;
      let user := find_one users (p_email payload) in
      match user with
      | Some u =>
          if not_user user || negb (is_True (dict_get u "is_active"))
          then Raise (HTTP Unauthorized)
          else Return (mkCurrent (p_email payload) (p_role payload)
                         (dict_get_or u "name" (VStr (p_email payload))))
      | None => Raise (HTTP Unauthorized)
      end
  end.

(** [get_current_user] from the call of [parse_token] on: what the
    guard does with the token once it is extracted from the header. *)
Definition guard_token (db : Database) (token : pystr) : result CurrentUser :=
  do payload <- parse_token token;
  do users <- db_user db;
  match find_one users (p_email payload) with
  | Some u =>
      if not_user (Some u) || negb (is_True (dict_get u "is_active"))
      then Raise (HTTP Unauthorized)
      else Return (mkCurrent (p_email payload) (p_role payload)
                     (dict_get_or u "name" (VStr (p_email payload))))
  | None => Raise (HTTP Unauthorized)
  end.

(** The role check at the head of [list_users]. *)
Definition list_users_guard (current : CurrentUser) : result unit :=
  if bool_decide (cu_role current = lit "admin") then Return tt
  else Raise (HTTP Forbidden).

(** Modelled from the spec: [requireRole(context, role)], the guard of
    [list_users] with the required role as an argument; it fails with
    [Forbidden] when [context.role != role]. *)
Definition requireRole (context : CurrentUser) (role : pystr) : result unit :=
  if bool_decide (cu_role context = role) then Return tt
  else Raise (HTTP Forbidden).

(** ** Authenticator *)

Record LoginRequest := mkLoginRequest { lr_email : pystr; lr_password : pystr }.

Record LoginResponse := mkLoginResponse {
  resp_email : pystr;
  resp_name : pystr;
  resp_role : pystr;
  resp_token : pystr
}.

(** A [str] field of a response model accepts only a string: numbers,
    booleans and [None] are not coerced. *)
Definition str_field (v : pyval) : result pystr :=
  match v with
  | VStr s => Return s
  | _ => Raise ValidationError
  end.

Section Authenticator.

(** The [EmailStr] field validator of the request and response
    models, an external library: [None] when the value is rejected,
    otherwise the normalised address the field then holds. *)
Variable EmailStr : pystr -> option pystr.

(** [LoginRequest(email=..., password=...)], built from the request
    body before [login] runs. *)
Definition LoginRequest_new (email password : pystr) : result LoginRequest :=
  match EmailStr email with
  | Some e => Return (mkLoginRequest e password)
  | None => Raise RequestValidationError
  end.

(** [LoginResponse(email=..., name=..., role=..., token=...)] *)
Definition LoginResponse_new (email : pystr) (name role : pyval) (token : pystr)
  : result LoginResponse :=
  match EmailStr email with
  | Some e =>
      do n <- str_field name;
      do r <- str_field role;
      Return (mkLoginResponse e n r token)
  | None => Raise ValidationError
  end.

Definition login (db : Database) (payload : LoginRequest) : result LoginResponse :=
  match db with
  | None => Raise (HTTP DatabaseNotConfigured)
  | Some users =>
      let user := find_one users (lr_email payload) in
      match user with
      | None => Raise (HTTP InvalidCredentials)
      | Some u =>
          if not_user user then Raise (HTTP InvalidCredentials)
          else if ne_str (dict_get u "password") (lr_password payload)
          then Raise (HTTP InvalidCredentials)
          else if negb (truthy (dict_get_or u "is_active" (VBool true)))
          then Raise (HTTP AccountInactive)
          else
            do token <- issue_token (lr_email payload)
                          (dict_get_or u "role" (VStr (lit "employee")));
            LoginResponse_new (lr_email payload)
              (dict_get_or u "name" (VStr (lr_email payload)))
              (dict_get_or u "role" (VStr (lit "employee")))
              token
      end
  end.

(** [POST /auth/login]: the body is validated into a [LoginRequest],
    then handed to [login]. *)
Definition post_auth_login (db : Database) (email password : pystr)
  : result LoginResponse :=
  do payload <- LoginRequest_new email password;
  login db payload.

End Authenticator.

(** ** Seeding *)

(** [User(...)] of [schemas.py] with its field constraints, as the
    document it is stored as. *)
Definition User (email password name role : pystr) (is_active : bool)
  : result Document :=
  if (1 <=? Z.of_nat (length email)) && (3 <=? Z.of_nat (length password))
     && (bool_decide (role = lit "admin") || bool_decide (role = lit "employee"))
  then Return ({[ "email"%string := VStr email;
                  "password"%string := VStr password;
                  "name"%string := VStr name;
                  "role"%string := VStr role;
                  "is_active"%string := VBool is_active ]} : Document)
  else Raise ValidationError.

(** Modelled from the spec: [create_document] of the absent [database]
    module, the store's [insert(collection, document)], with the
    unique index on [email] that [seed_users] asks for in place: a
    document whose [email] value is already stored is refused with
    [DuplicateKeyError] and nothing is stored. *)
Definition create_document (users : list Document) (doc : Document)
  : result (list Document) :=
  if existsb (fun d => bool_decide (d !! "email"%string = doc !! "email"%string))
       users
  then Raise DuplicateKeyError
  else Return (users ++ [doc]).

Definition seed_one (users : list Document) (email password name role : pystr)
  : result (list Document) :=
  if (count_documents users email =? 0)%nat then
    do doc <- User email password name role true;
    create_document users doc
  else Return users.

(** [seed_users]; the index it first asks for leaves the documents as
    they are, and a failure to create it is ignored. *)
Definition seed_users (db : Database) : result Database :=
  match db with
  | None => Return None
  | Some users =>
      do users1 <- seed_one users (lit "admin") (lit "admin")
                     (lit "Administrator") (lit "admin");
      do users2 <- seed_one users1 (lit "karyawan") (lit "karyawan")
                     (lit "Karyawan") (lit "employee");
      Return (Some users2)
  end.

(** The store right after start-up on an empty database. *)
Definition seeded_db : Database :=
  match seed_users (Some []) with
  | Return db => db
  | Raise _ => None
  end.

(** Text that JSON and BSON can carry: Unicode scalar values only. *)
Definition text (s : pystr) : Prop := Forall is_scalar s.

(** A field that is absent or holds text. *)
Definition text_or_absent (o : option pyval) : Prop :=
  match o with
  | None => True
  | Some (VStr s) => text s
  | Some _ => False
  end.

(** A stand-in for the e-mail validator, used to run the model on
    concrete requests: it accepts exactly the strings with one [@]
    that has text on both sides, and leaves them unchanged. *)
Definition simple_EmailStr (s : pystr) : option pystr :=
  match split_first AT_SIGN s with
  | Some (local, domain) =>
      match local, domain, split_first AT_SIGN domain with
      | _ :: _, _ :: _, None => Some s
      | _, _, _ => None
      end
  | None => None
  end.

(** ** Concrete records and requests used to run the model *)

Definition admin_doc : Document :=
  {[ "email"%string := VStr (lit "admin");
     "password"%string := VStr (lit "admin");
     "name"%string := VStr (lit "Administrator");
     "role"%string := VStr (lit "admin");
     "is_active"%string := VBool true ]}.

Definition karyawan_doc : Document :=
  {[ "email"%string := VStr (lit "karyawan");
     "password"%string := VStr (lit "karyawan");
     "name"%string := VStr (lit "Karyawan");
     "role"%string := VStr (lit "employee");
     "is_active"%string := VBool true ]}.

Definition alice : pystr := lit "alice@example.com".

Definition alice_doc : Document :=
  {[ "email"%string := VStr alice;
     "password"%string := VStr (lit "secret");
     "name"%string := VStr (lit "Alice");
     "role"%string := VStr (lit "admin");
     "is_active"%string := VBool true ]}.

Definition alice_request : LoginRequest := mkLoginRequest alice (lit "secret").

(** The token [issue_token] makes for [alice] with role [role]. *)
Definition token_for (email role : pystr) : pystr :=
  match issue_token email (VStr role) with
  | Return T => T
  | Raise _ => []
  end.

(** ** Listing users *)

Record UserListing := mkListing { l_count : nat; l_items : list Document }.

(** Modelled from the spec: [get_documents] of the absent [database]
    module, the store's [list(collection, filter, limit)] with the
    empty filter: the first [limit] documents in natural order. *)
Definition get_documents (users : list Document) (limit : nat) : list Document :=
  take limit users.

(** The body of the loop of [list_users]: [it.pop("password", None)],
    then [it["_id"] = str(it.get("_id"))]. *)
Definition redact (it : Document) : Document :=
  <["_id"%string := VStr (py_str (dict_get (delete "password"%string it) "_id"))]>
    (delete "password"%string it).

(** [list_users(current)] on the documents of a configured store. *)
Definition list_users (users : list Document) (current : CurrentUser)
  : result UserListing :=
  do _ <- list_users_guard current;
  let items := map redact (get_documents users 100) in
  Return (mkListing (length items) items).

(** [GET /admin/users]: [list_users] behind [Depends(get_current_user)].
    When the guard has returned, a database is configured. *)
Definition get_admin_users (db : Database) (authorization : option pystr)
  : result UserListing :=
  do current <- get_current_user db authorization;
  do users <- db_user db;
  list_users users current.

(** ** Letter case of hexadecimal digits *)

(** The upper-case form of the letters [a] to [f]. *)
Definition hex_upper (c : codepoint) : codepoint :=
  if (97 <=? c) && (c <=? 102) then c - 32 else c.

(** A digit as [bytes.hex()] writes it. *)
Definition is_lower_hex (c : codepoint) : bool :=
  ((48 <=? c) && (c <=? 57)) || ((97 <=? c) && (c <=? 102)).

(** Text made of such digits only. *)
Definition lower_hex_text (s : pystr) : Prop :=
  Forall (fun c => is_lower_hex c = true) s.

(** ** The strings [bytes.fromhex] reads *)

Definition is_hex_digit (c : codepoint) : bool :=
  match hexval c with Some _ => true | None => false end.

(** Pairs of hexadecimal digits, of either letter case, with ASCII
    whitespace allowed before, between and after the pairs and never
    inside one. *)
Inductive hex_pairs : pystr -> Prop :=
  | hex_pairs_nil : hex_pairs []
  | hex_pairs_space c s :
      is_ascii_space c = true -> hex_pairs s -> hex_pairs (c :: s)
  | hex_pairs_pair c d s :
      is_hex_digit c = true -> is_hex_digit d = true -> hex_pairs s ->
      hex_pairs (c :: d :: s).

Example split_ws_bearer :
  split_ws (lit "Bearer  ab12 ") = [lit "Bearer"; lit "ab12"].
Proof. reflexivity. Qed.

Example hex_example : hex [114; 58; 101] = lit "723a65".
Proof. reflexivity. Qed.

Example fromhex_example : fromhex (lit "72 3A65") = Some [114; 58; 101].
Proof. reflexivity. Qed.

Example utf8_example :
  utf8_encode [233; 8364; 128512] = Some [195; 169; 226; 130; 172; 240; 159; 152; 128]
  /\ utf8_decode [195; 169; 226; 130; 172; 240; 159; 152; 128] = Some [233; 8364; 128512].
Proof. split; reflexivity. Qed.

(** ** Codec lemmas *)

Ltac split_cmp :=
  repeat match goal with
    | |- context [?a <? ?b] => destruct (Z.ltb_spec a b)
    | |- context [?a <=? ?b] => destruct (Z.leb_spec a b)
    | |- context [?a =? ?b] => destruct (Z.eqb_spec a b)
    | H : context [?a <? ?b] |- _ => destruct (Z.ltb_spec a b)
    | H : context [?a <=? ?b] |- _ => destruct (Z.leb_spec a b)
    | H : context [?a =? ?b] |- _ => destruct (Z.eqb_spec a b)
    end.

Ltac arith := Z.to_euclidean_division_equations; lia.

Lemma utf8_decode_unfold b0 r0 :
  utf8_decode (b0 :: r0) =
    if (0 <=? b0) && (b0 <? 128) then cons_opt b0 (utf8_decode r0)
    else if (194 <=? b0) && (b0 <=? 223) then
      match r0 with
      | b1 :: r1 =>
          if is_cont b1
          then cons_opt ((b0 - 192) * 64 + (b1 - 128)) (utf8_decode r1)
          else None
      | _ => None
      end
    else if (224 <=? b0) && (b0 <=? 239) then
      match r0 with
      | b1 :: (b2 :: r2) =>
          let c := (b0 - 224) * 4096 + (b1 - 128) * 64 + (b2 - 128) in
          if is_cont b1 && is_cont b2 && (2048 <=? c)
             && negb ((55296 <=? c) && (c <=? 57343))
          then cons_opt c (utf8_decode r2) else None
      | _ => None
      end
    else if (240 <=? b0) && (b0 <=? 244) then
      match r0 with
      | b1 :: (b2 :: (b3 :: r3)) =>
          let c := (b0 - 240) * 262144 + (b1 - 128) * 4096
                   + (b2 - 128) * 64 + (b3 - 128) in
          if is_cont b1 && is_cont b2 && is_cont b3
             && (65536 <=? c) && (c <? 1114112)
          then cons_opt c (utf8_decode r3) else None
      | _ => None
      end
    else None.
Proof. reflexivity. Qed.

Lemma is_cont_true b : 128 <= b <= 191 -> is_cont b = true.
Proof. unfold is_cont. intros H. split_cmp; first [reflexivity | lia]. Qed.

Lemma utf8_decode_1 b0 r :
  0 <= b0 < 128 -> utf8_decode (b0 :: r) = cons_opt b0 (utf8_decode r).
Proof.
  intros H. rewrite utf8_decode_unfold.
  destruct (Z.leb_spec 0 b0); [|lia]. destruct (Z.ltb_spec b0 128); [|lia].
  reflexivity.
Qed.

Lemma utf8_decode_2 b0 b1 r :
  194 <= b0 <= 223 -> 128 <= b1 <= 191 ->
  utf8_decode (b0 :: b1 :: r) =
    cons_opt ((b0 - 192) * 64 + (b1 - 128)) (utf8_decode r).
Proof.
  intros H0 H1. rewrite utf8_decode_unfold, (is_cont_true b1) by lia.
  destruct (Z.ltb_spec b0 128); [lia|]. rewrite andb_false_r.
  destruct (Z.leb_spec 194 b0); [|lia]. destruct (Z.leb_spec b0 223); [|lia].
  reflexivity.
Qed.

Lemma utf8_decode_3 b0 b1 b2 r :
  224 <= b0 <= 239 -> 128 <= b1 <= 191 -> 128 <= b2 <= 191 ->
  let c := (b0 - 224) * 4096 + (b1 - 128) * 64 + (b2 - 128) in
  2048 <= c -> ~ (55296 <= c <= 57343) ->
  utf8_decode (b0 :: b1 :: b2 :: r) = cons_opt c (utf8_decode r).
Proof.
  intros H0 H1 H2 c Hlo Hsur.
  rewrite utf8_decode_unfold, (is_cont_true b1), (is_cont_true b2) by lia.
  fold c.
  destruct (Z.ltb_spec b0 128); [lia|]. rewrite andb_false_r.
  destruct (Z.leb_spec b0 223); [lia|]. rewrite andb_false_r.
  destruct (Z.leb_spec 224 b0); [|lia]. destruct (Z.leb_spec b0 239); [|lia].
  cbv zeta. fold c.
  destruct (Z.leb_spec 2048 c); [|lia].
  destruct (Z.leb_spec 55296 c), (Z.leb_spec c 57343); try lia; reflexivity.
Qed.

Lemma utf8_decode_4 b0 b1 b2 b3 r :
  240 <= b0 <= 244 -> 128 <= b1 <= 191 -> 128 <= b2 <= 191 -> 128 <= b3 <= 191 ->
  let c := (b0 - 240) * 262144 + (b1 - 128) * 4096 + (b2 - 128) * 64 + (b3 - 128) in
  65536 <= c < 1114112 ->
  utf8_decode (b0 :: b1 :: b2 :: b3 :: r) = cons_opt c (utf8_decode r).
Proof.
  intros H0 H1 H2 H3 c Hc.
  rewrite utf8_decode_unfold, (is_cont_true b1), (is_cont_true b2),
    (is_cont_true b3) by lia.
  fold c.
  destruct (Z.ltb_spec b0 128); [lia|]. rewrite andb_false_r.
  destruct (Z.leb_spec b0 223); [lia|]. rewrite andb_false_r.
  destruct (Z.leb_spec b0 239); [lia|]. rewrite andb_false_r.
  destruct (Z.leb_spec 240 b0); [|lia]. destruct (Z.leb_spec b0 244); [|lia].
  cbv zeta. fold c.
  destruct (Z.leb_spec 65536 c); [|lia]. destruct (Z.ltb_spec c 1114112); [|lia].
  reflexivity.
Qed.

Lemma utf8_encode_cp_scalar c bs :
  utf8_encode_cp c = Some bs -> is_scalar c.
Proof.
  unfold utf8_encode_cp, is_scalar. intros H.
  split_cmp; simpl in H; try discriminate; lia.
Qed.

Lemma utf8_encode_cp_total c :
  is_scalar c -> exists bs, utf8_encode_cp c = Some bs.
Proof.
  unfold utf8_encode_cp, is_scalar. intros H.
  split_cmp; simpl; eauto; lia.
Qed.

Lemma utf8_encode_cp_bytes c bs :
  utf8_encode_cp c = Some bs -> Forall is_byte bs.
Proof.
  unfold utf8_encode_cp, is_byte. intros H.
  split_cmp; simpl in H; try discriminate; inversion H; subst;
    repeat constructor; arith.
Qed.

Lemma utf8_decode_encode_cp c bs rest :
  utf8_encode_cp c = Some bs ->
  utf8_decode (bs ++ rest) = cons_opt c (utf8_decode rest).
Proof.
  unfold utf8_encode_cp. intros H.
  split_cmp; cbn [andb] in H; try discriminate; inversion H; subst; clear H;
    cbn [app].
  all: first [ apply utf8_decode_1; lia
             | rewrite utf8_decode_2 by arith
             | rewrite utf8_decode_3 by arith
             | rewrite utf8_decode_4 by arith ];
    f_equal; arith.
Qed.

Lemma utf8_encode_bytes s bs :
  utf8_encode s = Some bs -> Forall is_byte bs.
Proof.
  revert bs. induction s as [|c s IH]; intros bs H; simpl in H.
  - inversion H. constructor.
  - destruct (utf8_encode_cp c) as [b|] eqn:Hc; [|discriminate].
    destruct (utf8_encode s) as [r|]; [|discriminate].
    inversion H; subst. apply Forall_app. split.
    + eapply utf8_encode_cp_bytes; eauto.
    + apply IH. reflexivity.
Qed.

Lemma utf8_encode_total s :
  Forall is_scalar s -> exists bs, utf8_encode s = Some bs.
Proof.
  induction 1 as [|c s Hc _ [r IH]]; simpl; eauto.
  destruct (utf8_encode_cp_total c Hc) as [b ->]. rewrite IH. eauto.
Qed.

Lemma utf8_encode_scalar s bs :
  utf8_encode s = Some bs -> Forall is_scalar s.
Proof.
  revert bs. induction s as [|c s IH]; intros bs H; simpl in H; constructor.
  - destruct (utf8_encode_cp c) eqn:Hc; [|discriminate].
    eapply utf8_encode_cp_scalar; eauto.
  - destruct (utf8_encode_cp c); [|discriminate].
    destruct (utf8_encode s); [|discriminate]. eapply IH; eauto.
Qed.

(** [bytes.decode] undoes [str.encode]. *)
Lemma utf8_decode_encode s bs :
  utf8_encode s = Some bs -> utf8_decode bs = Some s.
Proof.
  revert bs. induction s as [|c s IH]; intros bs H; simpl in H.
  - inversion H. reflexivity.
  - destruct (utf8_encode_cp c) as [b|] eqn:Hc; [|discriminate].
    destruct (utf8_encode s) as [r|]; [|discriminate].
    inversion H; subst.
    rewrite (utf8_decode_encode_cp c b r Hc), (IH r eq_refl). reflexivity.
Qed.

Lemma utf8_encode_app s t bs bt :
  utf8_encode s = Some bs -> utf8_encode t = Some bt ->
  utf8_encode (s ++ t) = Some (bs ++ bt).
Proof.
  revert bs. induction s as [|c s IH]; intros bs Hs Ht; simpl in *.
  - inversion Hs. assumption.
  - destruct (utf8_encode_cp c) as [b|]; [|discriminate].
    destruct (utf8_encode s) as [r|]; [|discriminate].
    inversion Hs; subst. rewrite (IH r eq_refl Ht), app_assoc. reflexivity.
Qed.

(** Hexadecimal digits. *)
Lemma hexval_hexdigit n : 0 <= n < 16 -> hexval (hexdigit n) = Some n.
Proof.
  intros H. unfold hexval, hexdigit.
  split_cmp; cbn [andb]; try lia; f_equal; lia.
Qed.

Lemma hexdigit_not_space n :
  0 <= n < 16 ->
  is_space (hexdigit n) = false /\ is_ascii_space (hexdigit n) = false.
Proof.
  intros H. unfold is_space, is_ascii_space, hexdigit.
  split; split_cmp; cbn [andb orb]; first [reflexivity | lia].
Qed.

(** [bytes.fromhex] undoes [bytes.hex]. *)
Lemma fromhex_hex bs : Forall is_byte bs -> fromhex (hex bs) = Some bs.
Proof.
  induction 1 as [|b bs Hb _ IH]; [reflexivity|].
  unfold is_byte in Hb. cbn [hex fromhex].
  destruct (hexdigit_not_space (b / 16)) as [_ ->]; [arith|].
  rewrite !hexval_hexdigit, IH by arith. do 2 f_equal. arith.
Qed.

Lemma hex_no_space bs :
  Forall is_byte bs -> Forall (fun c => is_space c = false) (hex bs).
Proof.
  induction 1 as [|b bs Hb _ IH]; cbn [hex]; [constructor|].
  unfold is_byte in Hb.
  repeat constructor; [apply hexdigit_not_space; arith ..|exact IH].
Qed.

Lemma hex_nonempty bs : bs <> [] -> hex bs <> [].
Proof. destruct bs; [congruence|discriminate]. Qed.

(** ** Splitting *)

Lemma split_first_app sep a b :
  ~ In sep a -> split_first sep (a ++ sep :: b) = Some (a, b).
Proof.
  induction a as [|c a IH]; intros Hn; cbn [app split_first].
  - rewrite Z.eqb_refl. reflexivity.
  - destruct (Z.eqb_spec c sep) as [->|_].
    + exfalso. apply Hn. left. reflexivity.
    + rewrite IH; [reflexivity|]. intros Hin. apply Hn. right. exact Hin.
Qed.

Lemma split_first_None sep s : ~ In sep s -> split_first sep s = None.
Proof.
  induction s as [|c s IH]; intros Hn; cbn [split_first]; [reflexivity|].
  destruct (Z.eqb_spec c sep) as [->|_].
  - exfalso. apply Hn. left. reflexivity.
  - rewrite IH; [reflexivity|]. intros Hin. apply Hn. right. exact Hin.
Qed.

Lemma split_first_Some sep s a b :
  split_first sep s = Some (a, b) -> s = a ++ sep :: b /\ ~ In sep a.
Proof.
  revert a. induction s as [|c s IH]; intros a H; cbn [split_first] in H;
    [discriminate|].
  destruct (Z.eqb_spec c sep) as [->|Hne].
  - inversion H; subst. split; [reflexivity|]. intros [].
  - destruct (split_first sep s) as [[a' b']|]; [|discriminate].
    inversion H; subst. destruct (IH a' eq_refl) as [-> Hn].
    split; [reflexivity|]. intros [Heq|Hin]; [congruence|auto].
Qed.

Lemma split_ws_from_word cur t :
  no_space t -> rev cur ++ t <> [] ->
  split_ws_from cur t = [rev cur ++ t].
Proof.
  intros Ht. revert cur. induction Ht as [|c t Hc _ IH]; intros cur Hne.
  - rewrite app_nil_r in *. cbn [split_ws_from].
    destruct cur; [cbn in Hne; congruence|reflexivity].
  - cbn [split_ws_from]. rewrite Hc, IH.
    + cbn [rev]. rewrite <- app_assoc. reflexivity.
    + cbn [rev]. rewrite <- app_assoc. cbn. intros H.
      apply app_eq_nil in H as [_ H]. discriminate.
Qed.

Lemma split_ws_word t : no_space t -> t <> [] -> split_ws t = [t].
Proof. intros Ht Hne. exact (split_ws_from_word [] t Ht Hne). Qed.

(** Every segment [str.split()] returns is non-empty and free of
    whitespace. *)
Lemma split_ws_from_parts cur s :
  no_space cur ->
  Forall (fun p => p <> [] /\ no_space p) (split_ws_from cur s).
Proof.
  revert cur. induction s as [|c s IH]; intros cur Hcur; cbn [split_ws_from].
  - destruct cur as [|x cur]; constructor; [|constructor].
    split.
    + cbn [rev]. intros H. apply app_eq_nil in H as [_ H]. discriminate.
    + unfold no_space. apply Forall_rev. exact Hcur.
  - destruct (is_space c) eqn:Hc.
    + destruct cur as [|x cur]; [apply IH; constructor|].
      constructor; [|apply IH; constructor].
      split.
      * cbn [rev]. intros H. apply app_eq_nil in H as [_ H]. discriminate.
      * unfold no_space. apply Forall_rev. exact Hcur.
    + apply IH. constructor; assumption.
Qed.

Lemma split_ws_parts s : Forall (fun p => p <> [] /\ no_space p) (split_ws s).
Proof. apply split_ws_from_parts. constructor. Qed.

Lemma split_ws_last_word s parts tok :
  split_ws s = parts ++ [tok] -> split_ws tok = [tok].
Proof.
  intros H. pose proof (split_ws_parts s) as Hall. rewrite H in Hall.
  apply Forall_app in Hall as [_ Hall]. inversion Hall as [|? ? [Hne Hns] _]; subst.
  apply split_ws_word; assumption.
Qed.

(** A header made of anything, one whitespace character and a word
    ends in that word. *)
Lemma split_ws_from_snoc cur p w t :
  is_space w = true -> no_space t -> t <> [] ->
  exists pre, split_ws_from cur (p ++ w :: t) = pre ++ [t].
Proof.
  intros Hw Ht Hne. revert cur. induction p as [|c p IH]; intros cur.
  - cbn [app split_ws_from]. rewrite Hw, (split_ws_from_word [] t Ht Hne).
    destruct cur; [exists []|exists [rev (c :: cur)]]; reflexivity.
  - cbn [app split_ws_from]. destruct (is_space c).
    + destruct (IH []) as [pre Hpre]. rewrite Hpre.
      destruct cur; [exists pre|exists (rev (c0 :: cur) :: pre)]; reflexivity.
    + apply IH.
Qed.

Lemma split_ws_snoc p w t :
  is_space w = true -> no_space t -> t <> [] ->
  exists pre, split_ws (p ++ w :: t) = pre ++ [t].
Proof. apply split_ws_from_snoc. Qed.

Lemma split_ws_nonempty header parts tok :
  split_ws header = parts ++ [tok] -> header <> [].
Proof. intros H ->. destruct parts; discriminate. Qed.

(** ** Token codec: round trip and shape of issued tokens *)

Lemma parse_token_cases token :
  parse_token token = Raise (HTTP InvalidToken)
  \/ exists payload, parse_token token = Return payload.
Proof.
  unfold parse_token. destruct (parse_token_try token); eauto.
Qed.

Lemma parse_token_Return token payload :
  parse_token token = Return payload <->
  exists bs decoded,
    fromhex token = Some bs /\ utf8_decode bs = Some decoded
    /\ decoded = p_role payload ++ COLON :: p_email payload
    /\ ~ In COLON (p_role payload).
Proof.
  unfold parse_token, parse_token_try. split.
  - destruct (fromhex token) as [bs|] eqn:Hf; [|discriminate].
    destruct (utf8_decode bs) as [decoded|] eqn:Hd; [|discriminate].
    destruct (split_first COLON decoded) as [[r e]|] eqn:Hs; [|discriminate].
    intros H. inversion H; subst. apply split_first_Some in Hs as [-> Hn].
    exists bs, (r ++ COLON :: e). cbn.
    split; [reflexivity|]. split; [exact Hd|]. split; [reflexivity|exact Hn].
  - intros (bs & decoded & -> & -> & -> & Hn).
    rewrite split_first_app by exact Hn. destruct payload; reflexivity.
Qed.

Lemma issue_token_Return email role T :
  issue_token email role = Return T ->
  exists bs, utf8_encode (py_str role ++ COLON :: email) = Some bs /\ T = hex bs.
Proof.
  unfold issue_token.
  destruct (utf8_encode (py_str role ++ COLON :: email)) as [bs|]; [|discriminate].
  intros H. inversion H. eauto.
Qed.

Lemma issue_token_total email role :
  text (py_str role) -> text email -> exists T, issue_token email role = Return T.
Proof.
  intros Hr He. unfold issue_token.
  destruct (utf8_encode_total (py_str role ++ COLON :: email)) as [bs ->]; [|eauto].
  apply Forall_app. split; [exact Hr|]. constructor; [|exact He].
  left. unfold COLON. lia.
Qed.

Lemma parse_issue_token email role T :
  ~ In COLON (py_str role) ->
  issue_token email role = Return T ->
  parse_token T = Return (mkPayload (py_str role) email).
Proof.
  intros Hn H. apply issue_token_Return in H as (bs & Hbs & ->).
  apply parse_token_Return. exists bs, (py_str role ++ COLON :: email).
  split; [apply fromhex_hex; eapply utf8_encode_bytes; eauto|].
  split; [apply utf8_decode_encode; exact Hbs|].
  split; [reflexivity|exact Hn].
Qed.

(** An issued token is one non-empty word: [str.split()] leaves it whole. *)
Lemma issue_token_word email role T :
  issue_token email role = Return T -> no_space T /\ T <> [].
Proof.
  intros H. apply issue_token_Return in H as (bs & Hbs & ->). split.
  - apply hex_no_space. eapply utf8_encode_bytes; eauto.
  - apply hex_nonempty. intros ->.
    apply utf8_decode_encode in Hbs. cbn in Hbs. inversion Hbs as [Hnil].
    destruct (py_str role); discriminate.
Qed.

Lemma last_split_ws_bearer scheme w T :
  is_space w = true -> no_space T -> T <> [] ->
  last (split_ws (scheme ++ w :: T)) = Some T.
Proof.
  intros Hw Hs Hne. destruct (split_ws_snoc scheme w T Hw Hs Hne) as [pre ->].
  apply last_snoc.
Qed.

(** ** Credential store *)

Lemma find_one_email users email u :
  find_one users email = Some u -> u !! "email"%string = Some (VStr email).
Proof.
  induction users as [|d users IH]; cbn [find_one]; [discriminate|].
  case_bool_decide as Hd; [|exact IH]. intros H. inversion H; subst. exact Hd.
Qed.

Lemma find_one_not_user users email u :
  find_one users email = Some u -> not_user (Some u) = false.
Proof.
  intros H. apply find_one_email in H. unfold not_user.
  apply bool_decide_eq_false. intros Hdom.
  assert (Hin : "email"%string ∈ dom u) by (apply elem_of_dom; eauto).
  rewrite Hdom in Hin. set_solver.
Qed.

(** ** Access guard *)

Lemma get_current_user_guard_token db header token :
  last (split_ws header) = Some token ->
  get_current_user db (Some header) = guard_token db token.
Proof.
  intros Hl. unfold get_current_user, guard_token, last_part.
  destruct header as [|c header]; [discriminate|]. rewrite Hl. cbn [bind].
  destruct (parse_token token) as [payload|]; [|reflexivity].
  destruct db as [users|]; [|reflexivity]. cbn [bind db_user].
  destruct (find_one users (p_email payload)); reflexivity.
Qed.

Lemma guard_token_found users token payload u :
  parse_token token = Return payload ->
  find_one users (p_email payload) = Some u ->
  guard_token (Some users) token =
    if is_True (dict_get u "is_active")
    then Return (mkCurrent (p_email payload) (p_role payload)
                   (dict_get_or u "name" (VStr (p_email payload))))
    else Raise (HTTP Unauthorized).
Proof.
  intros Hp Hf. unfold guard_token. rewrite Hp. cbn [bind db_user]. rewrite Hf.
  rewrite (find_one_not_user _ _ _ Hf). cbn [orb].
  destruct (is_True (dict_get u "is_active")); reflexivity.
Qed.

Lemma is_True_lookup u :
  is_True (dict_get u "is_active") = true <->
  u !! "is_active"%string = Some (VBool true).
Proof.
  unfold dict_get. destruct (u !! "is_active"%string) as [[| [|] | |]|]; cbn;
    split; intros H; congruence.
Qed.

(** A successful call went through every check. *)
Lemma get_current_user_Return db authorization current :
  get_current_user db authorization = Return current ->
  exists header token payload users u,
    authorization = Some header
    /\ last (split_ws header) = Some token
    /\ parse_token token = Return payload
    /\ db = Some users
    /\ find_one users (p_email payload) = Some u
    /\ u !! "is_active"%string = Some (VBool true)
    /\ current = mkCurrent (p_email payload) (p_role payload)
                   (dict_get_or u "name" (VStr (p_email payload))).
Proof.
  intros H. destruct authorization as [header|]; [|discriminate].
  destruct header as [|c header]; [discriminate|].
  destruct (last (split_ws (c :: header))) as [token|] eqn:Hl.
  2:{ unfold get_current_user, last_part in H. rewrite Hl in H. discriminate. }
  rewrite (get_current_user_guard_token _ _ _ Hl) in H.
  unfold guard_token in H.
  destruct (parse_token token) as [payload|] eqn:Hp; [|discriminate].
  destruct db as [users|]; [|discriminate]. cbn [bind db_user] in H.
  destruct (find_one users (p_email payload)) as [u|] eqn:Hf; [|discriminate].
  rewrite (find_one_not_user _ _ _ Hf) in H. cbn [orb] in H.
  destruct (is_True (dict_get u "is_active")) eqn:Ha; [|discriminate].
  cbn [negb] in H. inversion H; subst.
  exists (c :: header), token, payload, users, u.
  repeat split; try assumption; try reflexivity. apply is_True_lookup. exact Ha.
Qed.

(** ** Authenticator *)

Lemma login_found EmailStr users payload u :
  find_one users (lr_email payload) = Some u ->
  login EmailStr (Some users) payload =
    if ne_str (dict_get u "password") (lr_password payload)
    then Raise (HTTP InvalidCredentials)
    else if negb (truthy (dict_get_or u "is_active" (VBool true)))
    then Raise (HTTP AccountInactive)
    else
      do token <- issue_token (lr_email payload)
                    (dict_get_or u "role" (VStr (lit "employee")));
      LoginResponse_new EmailStr (lr_email payload)
        (dict_get_or u "name" (VStr (lr_email payload)))
        (dict_get_or u "role" (VStr (lit "employee")))
        token.
Proof.
  intros Hf. unfold login. rewrite Hf, (find_one_not_user _ _ _ Hf). reflexivity.
Qed.

Lemma ne_str_false v s : ne_str v s = false <-> v = VStr s.
Proof.
  unfold ne_str. rewrite negb_false_iff. apply bool_decide_eq_true.
Qed.

Lemma ne_str_true v s : ne_str v s = true <-> v <> VStr s.
Proof.
  unfold ne_str. rewrite negb_true_iff. apply bool_decide_eq_false.
Qed.

Lemma dict_get_password u s :
  dict_get u "password" = VStr s <-> u !! "password"%string = Some (VStr s).
Proof.
  unfold dict_get. destruct (u !! "password"%string); cbn; split; congruence.
Qed.

(** What a login that gets past the three checks returns. *)
Lemma login_success EmailStr users payload u e n r :
  find_one users (lr_email payload) = Some u ->
  u !! "password"%string = Some (VStr (lr_password payload)) ->
  truthy (dict_get_or u "is_active" (VBool true)) = true ->
  dict_get_or u "role" (VStr (lit "employee")) = VStr r ->
  dict_get_or u "name" (VStr (lr_email payload)) = VStr n ->
  text r -> text (lr_email payload) ->
  EmailStr (lr_email payload) = Some e ->
  exists token,
    issue_token (lr_email payload) (VStr r) = Return token
    /\ login EmailStr (Some users) payload = Return (mkLoginResponse e n r token).
Proof.
  intros Hf Hp Ha Hr Hn Htr Hte He.
  destruct (issue_token_total (lr_email payload) (VStr r) Htr Hte) as [token Ht].
  exists token. split; [exact Ht|].
  rewrite (login_found _ _ _ _ Hf).
  apply dict_get_password in Hp. apply ne_str_false in Hp. rewrite Hp, Ha, Hr, Hn.
  cbn [negb]. rewrite Ht. cbn [bind]. unfold LoginResponse_new. rewrite He.
  reflexivity.
Qed.

(** What any returning login has returned. *)
Lemma login_Return EmailStr users payload u resp :
  find_one users (lr_email payload) = Some u ->
  login EmailStr (Some users) payload = Return resp ->
  u !! "password"%string = Some (VStr (lr_password payload))
  /\ truthy (dict_get_or u "is_active" (VBool true)) = true
  /\ dict_get_or u "role" (VStr (lit "employee")) = VStr (resp_role resp)
  /\ dict_get_or u "name" (VStr (lr_email payload)) = VStr (resp_name resp)
  /\ EmailStr (lr_email payload) = Some (resp_email resp)
  /\ issue_token (lr_email payload) (VStr (resp_role resp))
     = Return (resp_token resp).
Proof.
  intros Hf H. rewrite (login_found _ _ _ _ Hf) in H.
  destruct (ne_str _ _) eqn:Hp in H; [discriminate|].
  destruct (truthy _) eqn:Ha in H; [|discriminate]. cbn [negb] in H.
  destruct (issue_token _ _) as [token|] eqn:Ht in H; [|discriminate].
  cbn [bind] in H. unfold LoginResponse_new in H.
  destruct (EmailStr (lr_email payload)) as [e|] eqn:He; [|discriminate].
  destruct (dict_get_or u "name" _) as [| | |n] eqn:Hn; try discriminate.
  destruct (dict_get_or u "role" _) as [| | |r] eqn:Hr; try discriminate.
  cbn in H. inversion H; subst. cbn.
  apply ne_str_false, dict_get_password in Hp. auto 10.
Qed.

(** ** Properties of the token codec *)

Ltac solve_text :=
  unfold text; repeat constructor; unfold is_scalar; lia.

Ltac solve_notin :=
  cbn; unfold COLON, AT_SIGN, SPACE; intuition discriminate.

(** C2. For every pair of strings (role, identity) whose role has no
    [:], decoding the token that encoding the pair produced gives back
    exactly (role, identity), whatever further [:] the identity holds;
    and encoding does produce a token for every pair of well-formed
    strings. *)
Theorem C2_token_roundtrip (role identity : pystr) :
  ~ In COLON role ->
  (forall T, issue_token identity (VStr role) = Return T ->
             parse_token T = Return (mkPayload role identity))
  /\ (text role -> text identity ->
      exists T, issue_token identity (VStr role) = Return T
                /\ parse_token T = Return (mkPayload role identity)).
Proof.
  intros Hn. split.
  - intros T HT. exact (parse_issue_token identity (VStr role) T Hn HT).
  - intros Hr Hi.
    destruct (issue_token_total identity (VStr role) Hr Hi) as [T HT].
    exists T. split; [exact HT|].
    exact (parse_issue_token identity (VStr role) T Hn HT).
Qed.

Lemma C2_token_roundtrip_witness :
  exists T, issue_token (lit "a:b@c.d") (VStr (lit "admin")) = Return T
            /\ parse_token T = Return (mkPayload (lit "admin") (lit "a:b@c.d")).
Proof.
  apply (C2_token_roundtrip (lit "admin") (lit "a:b@c.d")).
  - solve_notin.
  - solve_text.
  - solve_text.
Defined.

(** A character that is neither a digit nor ASCII whitespace makes
    [bytes.fromhex] fail wherever it stands. *)
Lemma fromhex_bad_char_len n token c :
  (length token <= n)%nat ->
  In c token -> hexval c = None -> is_ascii_space c = false ->
  fromhex token = None.
Proof.
  revert token. induction n as [|n IH]; intros token Hlen Hin Hh Hs.
  - destruct token; [destruct Hin|cbn in Hlen; lia].
  - destruct token as [|c0 s']; [destruct Hin|]. cbn [fromhex].
    destruct (is_ascii_space c0) eqn:Hs0.
    + apply IH; [cbn in Hlen; lia| |exact Hh|exact Hs].
      destruct Hin as [->|Hin]; [congruence|exact Hin].
    + destruct (hexval c0) as [top|] eqn:Hh0; [|reflexivity].
      destruct s' as [|d s'']; [reflexivity|].
      destruct (hexval d) as [bot|] eqn:Hhd; [|reflexivity].
      rewrite (IH s''); [reflexivity|cbn in Hlen; lia| |exact Hh|exact Hs].
      destruct Hin as [->|[->|Hin]]; [congruence|congruence|exact Hin].
Qed.

Lemma fromhex_bad_char token c :
  In c token -> hexval c = None -> is_ascii_space c = false ->
  fromhex token = None.
Proof. apply (fromhex_bad_char_len (length token)). lia. Qed.

Lemma is_hex_digit_not_space c :
  is_hex_digit c = true -> is_ascii_space c = false.
Proof.
  unfold is_hex_digit, hexval, is_ascii_space. intros H.
  split_cmp; cbn [andb orb] in *; first [reflexivity | discriminate | lia].
Qed.

(** What [bytes.fromhex] reads is exactly the pairs of digits with
    whitespace between them. *)
Lemma fromhex_hex_pairs s : hex_pairs s -> exists bs, fromhex s = Some bs.
Proof.
  induction 1 as [|c s Hc _ [bs IH]|c d s Hc Hd _ [bs IH]]; cbn [fromhex].
  - eauto.
  - rewrite Hc. eauto.
  - rewrite (is_hex_digit_not_space c Hc). unfold is_hex_digit in Hc, Hd.
    destruct (hexval c); [|discriminate]. destruct (hexval d); [|discriminate].
    rewrite IH. eauto.
Qed.

Lemma hex_pairs_fromhex_len n s bs :
  (length s <= n)%nat -> fromhex s = Some bs -> hex_pairs s.
Proof.
  revert s bs. induction n as [|n IH]; intros s bs Hlen H.
  - destruct s; [constructor|cbn in Hlen; lia].
  - destruct s as [|c s']; [constructor|]. cbn [fromhex] in H.
    cbn [length] in Hlen.
    destruct (is_ascii_space c) eqn:Hs.
    + apply hex_pairs_space; [exact Hs|]. apply (IH s' bs); [lia|exact H].
    + destruct (hexval c) as [top|] eqn:Hc; [|discriminate].
      destruct s' as [|d s'']; [discriminate|].
      destruct (hexval d) as [bot|] eqn:Hd; [|discriminate].
      destruct (fromhex s'') as [rest|] eqn:Hr; [|discriminate].
      cbn [length] in Hlen. apply hex_pairs_pair.
      * unfold is_hex_digit. rewrite Hc. reflexivity.
      * unfold is_hex_digit. rewrite Hd. reflexivity.
      * apply (IH s'' rest); [lia|exact Hr].
Qed.

Lemma fromhex_None_iff s : fromhex s = None <-> ~ hex_pairs s.
Proof.
  split.
  - intros H Hp. destruct (fromhex_hex_pairs s Hp) as [bs Hbs]. congruence.
  - intros H. destruct (fromhex s) as [bs|] eqn:E; [|reflexivity].
    exfalso. apply H. exact (hex_pairs_fromhex_len (length s) s bs (le_n _) E).
Qed.

(** Without whitespace, such a string is an even number of digits. *)
Lemma hex_pairs_no_ascii_space s :
  hex_pairs s -> Forall (fun c => is_ascii_space c = false) s ->
  Forall (fun c => is_hex_digit c = true) s /\ Nat.Even (length s).
Proof.
  induction 1 as [|c s Hc _ IH|c d s Hc Hd _ IH]; intros Hs.
  - split; [constructor|exists O; reflexivity].
  - inversion Hs; subst. congruence.
  - inversion Hs as [|? ? _ Hs']; subst. inversion Hs' as [|? ? _ Hs'']; subst.
    destruct (IH Hs'') as [Hall [m Hm]]. split; [auto|].
    exists (S m). cbn [length]. lia.
Qed.

(** C4, as amended. [parse_token] fails with [InvalidToken] for every
    string that [bytes.fromhex] rejects, and these are exactly the
    strings that are not pairs of hexadecimal digits with ASCII
    whitespace between pairs only: among them every string that holds
    a character which is neither a hexadecimal digit nor ASCII
    whitespace, and every string free of ASCII whitespace that holds a
    character other than a hexadecimal digit or has an odd length.
    It fails likewise for every string whose decoded bytes are not
    valid UTF-8 and for every string whose decoded text has no [:];
    [InvalidToken] is the only error it ever raises. *)
Theorem C4_parse_token_failures (token : pystr) :
  (fromhex token = None <-> ~ hex_pairs token)
  /\ (~ hex_pairs token -> parse_token token = Raise (HTTP InvalidToken))
  /\ ((exists c, In c token /\ hexval c = None /\ is_ascii_space c = false) ->
      parse_token token = Raise (HTTP InvalidToken))
  /\ (Forall (fun c => is_ascii_space c = false) token ->
      (exists c, In c token /\ hexval c = None) \/ Nat.Odd (length token) ->
      parse_token token = Raise (HTTP InvalidToken))
  /\ (forall bs, fromhex token = Some bs -> utf8_decode bs = None ->
        parse_token token = Raise (HTTP InvalidToken))
  /\ (forall bs decoded, fromhex token = Some bs ->
        utf8_decode bs = Some decoded -> ~ In COLON decoded ->
        parse_token token = Raise (HTTP InvalidToken))
  /\ (forall e, parse_token token = Raise e -> e = HTTP InvalidToken).
Proof.
  assert (Hrej : ~ hex_pairs token -> parse_token token = Raise (HTTP InvalidToken)).
  { intros H. apply fromhex_None_iff in H. unfold parse_token, parse_token_try.
    rewrite H. reflexivity. }
  split; [exact (fromhex_None_iff token)|]. split; [exact Hrej|].
  unfold parse_token, parse_token_try. repeat split.
  - intros (c & Hin & Hh & Hs). rewrite (fromhex_bad_char token c Hin Hh Hs).
    reflexivity.
  - intros Hns Hbad. apply Hrej. intros Hp.
    destruct (hex_pairs_no_ascii_space token Hp Hns) as [Hall [m Hm]].
    destruct Hbad as [(c & Hin & Hh)|[k Hk]]; [|lia].
    rewrite List.Forall_forall in Hall. specialize (Hall c Hin).
    unfold is_hex_digit in Hall. rewrite Hh in Hall. discriminate.
  - intros bs -> ->. reflexivity.
  - intros bs decoded -> -> Hn. rewrite (split_first_None _ _ Hn). reflexivity.
  - intros e. destruct (fromhex token) as [bs|]; [|congruence].
    destruct (utf8_decode bs) as [decoded|]; [|congruence].
    destruct (split_first COLON decoded) as [[r em]|]; congruence.
Qed.

Lemma C4_parse_token_failures_witness :
  parse_token (lit "72-3a65") = Raise (HTTP InvalidToken)
  /\ parse_token (lit "723") = Raise (HTTP InvalidToken)
  /\ parse_token (lit "7 23a65") = Raise (HTTP InvalidToken)
  /\ parse_token (lit "c328") = Raise (HTTP InvalidToken)
  /\ parse_token (lit "726f6c65") = Raise (HTTP InvalidToken).
Proof.
  split; [|split; [|split; [|split]]].
  - destruct (C4_parse_token_failures (lit "72-3a65")) as (_ & _ & H & _).
    apply H. exists 45. split; [cbn; auto|]. split; reflexivity.
  - destruct (C4_parse_token_failures (lit "723")) as (_ & _ & _ & H & _).
    apply H; [repeat constructor|]. right. exists 1%nat. reflexivity.
  - destruct (C4_parse_token_failures (lit "7 23a65")) as (Hiff & Hrej & _).
    apply Hrej. apply Hiff. reflexivity.
  - destruct (C4_parse_token_failures (lit "c328")) as (_ & _ & _ & _ & H & _).
    apply (H [195; 40]); reflexivity.
  - destruct (C4_parse_token_failures (lit "726f6c65"))
      as (_ & _ & _ & _ & _ & H & _).
    apply (H [114; 111; 108; 101] (lit "role"));
      [reflexivity|reflexivity|solve_notin].
Defined.

(** C4 as stated fails: the string [72 3a 65] holds a space, which is
    no hexadecimal digit, and was not produced by [issue_token], yet
    [parse_token] accepts it. *)
Lemma C4_counterexample :
  In SPACE (lit "72 3a 65") /\ hexval SPACE = None
  /\ (forall email role, issue_token email role <> Return (lit "72 3a 65"))
  /\ parse_token (lit "72 3a 65") = Return (mkPayload (lit "r") (lit "e"))
  /\ parse_token (lit "72 3a 65") <> Raise (HTTP InvalidToken).
Proof.
  split; [cbn; auto|]. split; [reflexivity|]. split; [|split].
  - intros email role H. apply issue_token_word in H as [Hns _].
    unfold no_space in Hns. rewrite List.Forall_forall in Hns.
    specialize (Hns SPACE). cbn in Hns. discriminate Hns. auto.
  - reflexivity.
  - discriminate.
Qed.

(** ** Properties of the access guard *)

(** C9. Without an authorization value the guard fails with
    [MissingCredentials]; for a header that splits into whitespace
    separated segments, the last segment alone is the token: the guard
    does with the header exactly what it does with that segment, and
    nothing that precedes it is looked at. *)
Theorem C9_last_segment_is_token (db : Database) :
  get_current_user db None = Raise (HTTP MissingCredentials)
  /\ forall header parts token,
       split_ws header = parts ++ [token] ->
       get_current_user db (Some header) = guard_token db token
       /\ get_current_user db (Some header) = get_current_user db (Some token).
Proof.
  split; [reflexivity|]. intros header parts token Hs.
  assert (Hl : last (split_ws header) = Some token)
    by (rewrite Hs; apply last_snoc).
  assert (Hl' : last (split_ws token) = Some token)
    by (rewrite (split_ws_last_word _ _ _ Hs); reflexivity).
  rewrite (get_current_user_guard_token db header token Hl).
  rewrite (get_current_user_guard_token db token token Hl').
  split; reflexivity.
Qed.

Lemma C9_last_segment_is_token_witness :
  get_current_user seeded_db (Some (lit "Basic xyz  61646d696e3a61646d696e "))
  = get_current_user seeded_db (Some (lit "61646d696e3a61646d696e")).
Proof.
  apply (C9_last_segment_is_token seeded_db)
    with (parts := [lit "Basic"; lit "xyz"]).
  reflexivity.
Defined.

(** C6, where the code departs from it. A header made of whitespace
    only is not empty, so it passes the first check; it splits into no
    segment at all and [parts[-1]] raises [IndexError], which is none
    of the three error kinds. *)
Theorem C6_whitespace_header_raises_IndexError (db : Database) :
  get_current_user db (Some [160]) = Raise IndexError
  /\ get_current_user db (Some (lit " ")) = Raise IndexError
  /\ Raise IndexError <> (Raise (HTTP MissingCredentials) : result CurrentUser)
  /\ Raise IndexError <> (Raise (HTTP InvalidToken) : result CurrentUser)
  /\ Raise IndexError <> (Raise (HTTP Unauthorized) : result CurrentUser).
Proof.
  split; [reflexivity|]. split; [reflexivity|].
  split; [discriminate|]. split; discriminate.
Qed.

(** The same holds of any header without a visible character. *)
Lemma split_ws_from_all_space s :
  Forall (fun c => is_space c = true) s -> split_ws_from [] s = [].
Proof.
  induction 1 as [|c s Hc _ IH]; cbn [split_ws_from]; [reflexivity|].
  rewrite Hc. exact IH.
Qed.

Lemma get_current_user_blank db c header :
  Forall (fun c => is_space c = true) (c :: header) ->
  get_current_user db (Some (c :: header)) = Raise IndexError.
Proof.
  intros H. unfold get_current_user, split_ws.
  rewrite (split_ws_from_all_space _ H). reflexivity.
Qed.

(** Without a configured database a decodable token ends in
    [TypeError], raised by [db["user"]]. *)
Lemma get_current_user_no_db header token payload :
  last (split_ws header) = Some token ->
  parse_token token = Return payload ->
  get_current_user None (Some header) = Raise TypeError.
Proof.
  intros Hl Hp. rewrite (get_current_user_guard_token _ _ _ Hl).
  unfold guard_token. rewrite Hp. reflexivity.
Qed.

(** Everywhere else the guard ends in an identity or in one of its
    three error kinds. *)
Lemma get_current_user_typed users authorization :
  (forall header, authorization = Some header -> split_ws header <> []
                  \/ header = []) ->
  (exists current, get_current_user (Some users) authorization = Return current)
  \/ get_current_user (Some users) authorization = Raise (HTTP MissingCredentials)
  \/ get_current_user (Some users) authorization = Raise (HTTP InvalidToken)
  \/ get_current_user (Some users) authorization = Raise (HTTP Unauthorized).
Proof.
  intros Hh. destruct authorization as [header|]; [|right; left; reflexivity].
  destruct header as [|c header]; [right; left; reflexivity|].
  destruct (Hh _ eq_refl) as [Hne|]; [|discriminate].
  destruct (last (split_ws (c :: header))) as [token|] eqn:Hl.
  2:{ apply last_None in Hl. contradiction. }
  rewrite (get_current_user_guard_token _ _ _ Hl). unfold guard_token.
  destruct (parse_token_cases token) as [->|[payload ->]];
    [right; right; left; reflexivity|].
  cbn [bind db_user].
  destruct (find_one users (p_email payload)) as [u|]; [|auto].
  destruct (not_user (Some u) || negb (is_True (dict_get u "is_active"))); eauto.
Qed.

(** C5. The guard returns an identity only when the record now stored
    for the decoded identity has [is_active] equal to [True]; so a
    token that still decodes is refused with [Unauthorized] once the
    stored flag is [False], and so is in particular a token issued
    earlier for that account and sent as [Bearer <token>]. *)
Theorem C5_identity_only_for_active (db : Database) (authorization : option pystr) :
  (forall current,
     get_current_user db authorization = Return current ->
     exists header token payload users u,
       authorization = Some header
       /\ last (split_ws header) = Some token
       /\ parse_token token = Return payload
       /\ db = Some users
       /\ find_one users (p_email payload) = Some u
       /\ cu_email current = p_email payload
       /\ u !! "is_active"%string = Some (VBool true))
  /\ (forall header token payload users u,
        authorization = Some header -> db = Some users ->
        last (split_ws header) = Some token ->
        parse_token token = Return payload ->
        find_one users (p_email payload) = Some u ->
        u !! "is_active"%string = Some (VBool false) ->
        get_current_user db authorization = Raise (HTTP Unauthorized))
  /\ (forall identity role T users u,
        issue_token identity (VStr role) = Return T ->
        ~ In COLON role ->
        authorization = Some (lit "Bearer " ++ T) -> db = Some users ->
        find_one users identity = Some u ->
        u !! "is_active"%string = Some (VBool false) ->
        parse_token T = Return (mkPayload role identity)
        /\ get_current_user db authorization = Raise (HTTP Unauthorized)).
Proof.
  assert (Hdead : forall header token payload users u,
            last (split_ws header) = Some token ->
            parse_token token = Return payload ->
            find_one users (p_email payload) = Some u ->
            u !! "is_active"%string = Some (VBool false) ->
            get_current_user (Some users) (Some header)
            = Raise (HTTP Unauthorized)).
  { intros header token payload users u Hl Hp Hf Ha.
    rewrite (get_current_user_guard_token _ _ _ Hl).
    rewrite (guard_token_found _ _ _ _ Hp Hf). unfold dict_get. rewrite Ha.
    reflexivity. }
  split; [|split].
  - intros current H.
    apply get_current_user_Return in H
      as (header & token & payload & users & u & Ha & Hl & Hp & Hd & Hf & Hact & ->).
    exists header, token, payload, users, u. auto 10.
  - intros header token payload users u -> -> Hl Hp Hf Ha.
    exact (Hdead header token payload users u Hl Hp Hf Ha).
  - intros identity role T users u HT Hn -> -> Hf Ha.
    pose proof (parse_issue_token identity (VStr role) T Hn HT) as Hp.
    destruct (issue_token_word _ _ _ HT) as [Hns Hne].
    split; [exact Hp|].
    apply (Hdead _ T (mkPayload role identity) users u); auto.
    change (lit "Bearer " ++ T) with (lit "Bearer" ++ SPACE :: T).
    apply last_split_ws_bearer; auto.
Qed.

(** C8. For a token whose decoded identity is stored and active, the
    role of the returned identity is the role decoded from the token;
    the stored [role] field is never read, so storing another role for
    the same record leaves the answer to that token unchanged. *)
Theorem C8_role_comes_from_token
    (users : list Document) (header token : pystr) (payload : TokenPayload)
    (u : Document) :
  last (split_ws header) = Some token ->
  parse_token token = Return payload ->
  find_one users (p_email payload) = Some u ->
  u !! "is_active"%string = Some (VBool true) ->
  get_current_user (Some users) (Some header)
  = Return (mkCurrent (p_email payload) (p_role payload)
              (dict_get_or u "name" (VStr (p_email payload))))
  /\ forall users' v,
       find_one users' (p_email payload) = Some (<["role"%string := v]> u) ->
       get_current_user (Some users') (Some header)
       = get_current_user (Some users) (Some header).
Proof.
  intros Hl Hp Hf Ha.
  assert (H1 : get_current_user (Some users) (Some header)
               = Return (mkCurrent (p_email payload) (p_role payload)
                           (dict_get_or u "name" (VStr (p_email payload))))).
  { rewrite (get_current_user_guard_token _ _ _ Hl).
    rewrite (guard_token_found _ _ _ _ Hp Hf).
    apply is_True_lookup in Ha. rewrite Ha. reflexivity. }
  split; [exact H1|]. intros users' v Hf'. rewrite H1.
  rewrite (get_current_user_guard_token _ _ _ Hl).
  rewrite (guard_token_found _ _ _ _ Hp Hf').
  unfold dict_get, dict_get_or. rewrite !lookup_insert_ne by discriminate.
  rewrite Ha. reflexivity.
Qed.

Lemma C5_identity_only_for_active_witness :
  parse_token (token_for alice (lit "admin")) = Return (mkPayload (lit "admin") alice)
  /\ get_current_user (Some [<["is_active"%string := VBool false]> alice_doc])
       (Some (lit "Bearer " ++ token_for alice (lit "admin")))
     = Raise (HTTP Unauthorized).
Proof.
  destruct (C5_identity_only_for_active
              (Some [<["is_active"%string := VBool false]> alice_doc])
              (Some (lit "Bearer " ++ token_for alice (lit "admin"))))
    as [_ [_ H]].
  apply (H alice (lit "admin") (token_for alice (lit "admin"))
           [<["is_active"%string := VBool false]> alice_doc]
           (<["is_active"%string := VBool false]> alice_doc)).
  - reflexivity.
  - solve_notin.
  - reflexivity.
  - reflexivity.
  - reflexivity.
  - reflexivity.
Defined.

Lemma C8_role_comes_from_token_witness :
  get_current_user (Some [alice_doc])
    (Some (lit "Bearer " ++ token_for alice (lit "admin")))
  = Return (mkCurrent alice (lit "admin") (VStr (lit "Alice")))
  /\ get_current_user (Some [<["role"%string := VStr (lit "employee")]> alice_doc])
       (Some (lit "Bearer " ++ token_for alice (lit "admin")))
     = get_current_user (Some [alice_doc])
         (Some (lit "Bearer " ++ token_for alice (lit "admin"))).
Proof.
  destruct (C8_role_comes_from_token [alice_doc]
              (lit "Bearer " ++ token_for alice (lit "admin"))
              (token_for alice (lit "admin"))
              (mkPayload (lit "admin") alice) alice_doc) as [H1 H2];
    try reflexivity.
  split; [exact H1|].
  apply (H2 [<["role"%string := VStr (lit "employee")]> alice_doc]
            (VStr (lit "employee"))).
  reflexivity.
Defined.

(** ** Properties of the authenticator *)

(** C3. A login for an identity without a record, or with a record
    whose stored password is not exactly the supplied one, fails with
    [InvalidCredentials] in both cases; with a matching password and
    [is_active] false it fails with [AccountInactive], a different
    error with a different status code. *)
Theorem C3_login_failures
    (EmailStr : pystr -> option pystr) (users : list Document)
    (payload : LoginRequest) :
  (find_one users (lr_email payload) = None ->
   login EmailStr (Some users) payload = Raise (HTTP InvalidCredentials))
  /\ (forall u,
        find_one users (lr_email payload) = Some u ->
        u !! "password"%string <> Some (VStr (lr_password payload)) ->
        login EmailStr (Some users) payload = Raise (HTTP InvalidCredentials))
  /\ (forall u,
        find_one users (lr_email payload) = Some u ->
        u !! "password"%string = Some (VStr (lr_password payload)) ->
        u !! "is_active"%string = Some (VBool false) ->
        login EmailStr (Some users) payload = Raise (HTTP AccountInactive))
  /\ AccountInactive <> InvalidCredentials
  /\ status_code AccountInactive <> status_code InvalidCredentials.
Proof.
  split; [|split; [|split; [|split]]].
  - intros Hf. unfold login. rewrite Hf. reflexivity.
  - intros u Hf Hp. rewrite (login_found _ _ _ _ Hf).
    assert (Hne : ne_str (dict_get u "password") (lr_password payload) = true).
    { apply ne_str_true. intros Heq. apply Hp, dict_get_password. exact Heq. }
    rewrite Hne. reflexivity.
  - intros u Hf Hp Ha. rewrite (login_found _ _ _ _ Hf).
    apply dict_get_password, ne_str_false in Hp. rewrite Hp.
    unfold dict_get_or. rewrite Ha. reflexivity.
  - discriminate.
  - discriminate.
Qed.

Lemma C3_login_failures_witness :
  login simple_EmailStr (Some [alice_doc]) (mkLoginRequest (lit "bob@example.com") (lit "secret"))
  = Raise (HTTP InvalidCredentials)
  /\ login simple_EmailStr (Some [alice_doc]) (mkLoginRequest alice (lit "Secret"))
     = Raise (HTTP InvalidCredentials)
  /\ login simple_EmailStr (Some [<["is_active"%string := VBool false]> alice_doc])
       alice_request
     = Raise (HTTP AccountInactive).
Proof.
  split; [|split].
  - apply (C3_login_failures simple_EmailStr [alice_doc]
             (mkLoginRequest (lit "bob@example.com") (lit "secret"))).
    reflexivity.
  - apply (C3_login_failures simple_EmailStr [alice_doc]
             (mkLoginRequest alice (lit "Secret"))) with (u := alice_doc).
    + reflexivity.
    + vm_compute. discriminate.
  - apply (C3_login_failures simple_EmailStr
             [<["is_active"%string := VBool false]> alice_doc] alice_request)
      with (u := <["is_active"%string := VBool false]> alice_doc);
      reflexivity.
Defined.

(** C10. When the stored record has no [role] field, a login that
    succeeds answers with role [employee] and with the token that
    encodes role [employee] for the identity; and such a login does
    succeed once the password matches, the account counts as active
    and the remaining fields are well formed. *)
Theorem C10_absent_role_defaults_to_employee
    (EmailStr : pystr -> option pystr) (users : list Document)
    (payload : LoginRequest) (u : Document) :
  find_one users (lr_email payload) = Some u ->
  u !! "role"%string = None ->
  (forall resp,
     login EmailStr (Some users) payload = Return resp ->
     resp_role resp = lit "employee"
     /\ issue_token (lr_email payload) (VStr (lit "employee"))
        = Return (resp_token resp)
     /\ parse_token (resp_token resp)
        = Return (mkPayload (lit "employee") (lr_email payload)))
  /\ (forall e n,
        u !! "password"%string = Some (VStr (lr_password payload)) ->
        truthy (dict_get_or u "is_active" (VBool true)) = true ->
        dict_get_or u "name" (VStr (lr_email payload)) = VStr n ->
        text (lr_email payload) ->
        EmailStr (lr_email payload) = Some e ->
        exists token,
          login EmailStr (Some users) payload
          = Return (mkLoginResponse e n (lit "employee") token)
          /\ parse_token token
             = Return (mkPayload (lit "employee") (lr_email payload))).
Proof.
  intros Hf Hr.
  assert (Hrole : dict_get_or u "role" (VStr (lit "employee"))
                  = VStr (lit "employee"))
    by (unfold dict_get_or; rewrite Hr; reflexivity).
  assert (Hn : ~ In COLON (py_str (VStr (lit "employee")))) by solve_notin.
  split.
  - intros resp H.
    destruct (login_Return _ _ _ _ _ Hf H) as (_ & _ & Hr' & _ & _ & Ht).
    rewrite Hrole in Hr'. inversion Hr' as [Heq]. rewrite <- Heq in Ht.
    split; [reflexivity|]. split; [exact Ht|].
    exact (parse_issue_token _ _ _ Hn Ht).
  - intros e n Hp Ha Hname Hte He.
    destruct (login_success EmailStr users payload u e n (lit "employee")
                Hf Hp Ha Hrole Hname ltac:(solve_text) Hte He)
      as (token & Ht & Hl).
    exists token. split; [exact Hl|]. exact (parse_issue_token _ _ _ Hn Ht).
Qed.

Lemma C10_absent_role_defaults_to_employee_witness :
  exists token,
    login simple_EmailStr (Some [delete "role"%string alice_doc]) alice_request
    = Return (mkLoginResponse alice (lit "Alice") (lit "employee") token)
    /\ parse_token token = Return (mkPayload (lit "employee") alice).
Proof.
  destruct (C10_absent_role_defaults_to_employee simple_EmailStr
              [delete "role"%string alice_doc] alice_request
              (delete "role"%string alice_doc)) as [_ H];
    [reflexivity|reflexivity|].
  apply H.
  - reflexivity.
  - reflexivity.
  - reflexivity.
  - solve_text.
  - reflexivity.
Defined.

(** C7, as amended. For a record without an [is_active] field, [login]
    applies the default and goes through when the password matches;
    the access guard applies no default: it wants the field present
    and equal to [True], so it refuses every token of that identity
    with [Unauthorized]. *)
Theorem C7_absent_is_active
    (EmailStr : pystr -> option pystr) (users : list Document)
    (payload : LoginRequest) (u : Document) :
  find_one users (lr_email payload) = Some u ->
  u !! "is_active"%string = None ->
  (forall e n r,
     u !! "password"%string = Some (VStr (lr_password payload)) ->
     dict_get_or u "role" (VStr (lit "employee")) = VStr r ->
     dict_get_or u "name" (VStr (lr_email payload)) = VStr n ->
     text r -> text (lr_email payload) ->
     EmailStr (lr_email payload) = Some e ->
     exists token,
       issue_token (lr_email payload) (VStr r) = Return token
       /\ login EmailStr (Some users) payload
          = Return (mkLoginResponse e n r token))
  /\ (forall header token tp,
        last (split_ws header) = Some token ->
        parse_token token = Return tp ->
        p_email tp = lr_email payload ->
        get_current_user (Some users) (Some header)
        = Raise (HTTP Unauthorized)).
Proof.
  intros Hf Ha. split.
  - intros e n r Hp Hr Hn Htr Hte He.
    apply (login_success EmailStr users payload u e n r); auto.
    unfold dict_get_or. rewrite Ha. reflexivity.
  - intros header token tp Hl Hp Hem.
    rewrite (get_current_user_guard_token _ _ _ Hl).
    rewrite <- Hem in Hf. rewrite (guard_token_found _ _ _ _ Hp Hf).
    unfold dict_get. rewrite Ha. reflexivity.
Qed.

Lemma C7_absent_is_active_witness :
  (exists token,
     issue_token alice (VStr (lit "admin")) = Return token
     /\ login simple_EmailStr (Some [delete "is_active"%string alice_doc])
          alice_request
        = Return (mkLoginResponse alice (lit "Alice") (lit "admin") token))
  /\ get_current_user (Some [delete "is_active"%string alice_doc])
       (Some (lit "Bearer " ++ token_for alice (lit "admin")))
     = Raise (HTTP Unauthorized).
Proof.
  destruct (C7_absent_is_active simple_EmailStr
              [delete "is_active"%string alice_doc] alice_request
              (delete "is_active"%string alice_doc)) as [H1 H2];
    [reflexivity|reflexivity|].
  split.
  - apply H1; try reflexivity; solve_text.
  - apply (H2 _ (token_for alice (lit "admin")) (mkPayload (lit "admin") alice));
      reflexivity.
Defined.

(** C7 as stated fails: the record below has no [is_active] field; the
    login succeeds, and the token it returns is then refused by the
    guard with [Unauthorized]. *)
Lemma C7_counterexample :
  (delete "is_active"%string alice_doc) !! "is_active"%string = None
  /\ login simple_EmailStr (Some [delete "is_active"%string alice_doc])
       alice_request
     = Return (mkLoginResponse alice (lit "Alice") (lit "admin")
                 (token_for alice (lit "admin")))
  /\ get_current_user (Some [delete "is_active"%string alice_doc])
       (Some (lit "Bearer " ++ token_for alice (lit "admin")))
     = Raise (HTTP Unauthorized).
Proof. split; [|split]; reflexivity. Qed.

(** ** The seeded administrator *)

Lemma seeded_db_eq :
  seed_users (Some []) = Return seeded_db
  /\ seeded_db = Some [admin_doc; karyawan_doc].
Proof. split; reflexivity. Qed.

Lemma simple_EmailStr_needs_at s : ~ In AT_SIGN s -> simple_EmailStr s = None.
Proof.
  intros H. unfold simple_EmailStr. rewrite (split_first_None _ _ H).
  reflexivity.
Qed.

(** C1, where the code departs from it. The seeded administrator has
    identity [admin], and an e-mail validator accepts no string
    without [@]: the login request for [admin]/[admin] is rejected
    when the request model is built, before [login] runs; and [login]
    itself, handed that request unvalidated, passes every check and
    then fails to build its response, whose [email] field has the
    same type.  No token is returned either way. *)
Theorem C1_seeded_admin_login_rejected (EmailStr : pystr -> option pystr) :
  (forall s, ~ In AT_SIGN s -> EmailStr s = None) ->
  find_one [admin_doc; karyawan_doc] (lit "admin") = Some admin_doc
  /\ post_auth_login EmailStr seeded_db (lit "admin") (lit "admin")
     = Raise RequestValidationError
  /\ login EmailStr seeded_db (mkLoginRequest (lit "admin") (lit "admin"))
     = Raise ValidationError.
Proof.
  intros Hat.
  assert (Hadmin : EmailStr (lit "admin") = None) by (apply Hat; solve_notin).
  split; [reflexivity|]. split.
  - unfold post_auth_login, LoginRequest_new. rewrite Hadmin. reflexivity.
  - change seeded_db with (Some [admin_doc; karyawan_doc]).
    rewrite (login_found EmailStr [admin_doc; karyawan_doc]
               (mkLoginRequest (lit "admin") (lit "admin")) admin_doc eq_refl).
    change (lr_email (mkLoginRequest (lit "admin") (lit "admin")))
      with (lit "admin").
    unfold LoginResponse_new.
    replace (ne_str (dict_get admin_doc "password")
               (lr_password (mkLoginRequest (lit "admin") (lit "admin"))))
      with false by reflexivity.
    replace (truthy (dict_get_or admin_doc "is_active" (VBool true)))
      with true by reflexivity.
    cbn [negb].
    destruct (issue_token (lit "admin")
                (dict_get_or admin_doc "role" (VStr (lit "employee"))))
      as [token|] eqn:Ht; [|vm_compute in Ht; discriminate].
    cbn [bind]. rewrite Hadmin. reflexivity.
Qed.

Lemma C1_seeded_admin_login_rejected_witness :
  post_auth_login simple_EmailStr seeded_db (lit "admin") (lit "admin")
  = Raise RequestValidationError
  /\ login simple_EmailStr seeded_db (mkLoginRequest (lit "admin") (lit "admin"))
     = Raise ValidationError.
Proof.
  apply (C1_seeded_admin_login_rejected simple_EmailStr simple_EmailStr_needs_at).
Defined.

(** The rest of the scenario holds of the code: the token that
    encodes (admin, admin) is accepted by the guard on the seeded
    store, and the role check passes for [admin] only. *)
Lemma seeded_admin_token_accepted :
  issue_token (lit "admin") (VStr (lit "admin"))
  = Return (lit "61646d696e3a61646d696e")
  /\ get_current_user seeded_db (Some (lit "Bearer 61646d696e3a61646d696e"))
     = Return (mkCurrent (lit "admin") (lit "admin") (VStr (lit "Administrator")))
  /\ requireRole (mkCurrent (lit "admin") (lit "admin") (VStr (lit "Administrator")))
       (lit "admin") = Return tt
  /\ requireRole (mkCurrent (lit "admin") (lit "admin") (VStr (lit "Administrator")))
       (lit "employee") = Raise (HTTP Forbidden)
  /\ list_users_guard
       (mkCurrent (lit "admin") (lit "admin") (VStr (lit "Administrator")))
     = Return tt.
Proof. repeat split; reflexivity. Qed.

Lemma requireRole_iff context role :
  requireRole context role = Return tt <-> cu_role context = role.
Proof.
  unfold requireRole. case_bool_decide; split; intros; congruence.
Qed.

(** ** More on the codec: the other direction of the round trips *)

Lemma utf8_encode_cp_1 c : 0 <= c < 128 -> utf8_encode_cp c = Some [c].
Proof.
  intros H. unfold utf8_encode_cp.
  destruct (Z.ltb_spec c 0); [lia|]. destruct (Z.ltb_spec c 128); [|lia].
  reflexivity.
Qed.

Lemma utf8_encode_cp_2 b0 b1 :
  194 <= b0 <= 223 -> 128 <= b1 <= 191 ->
  utf8_encode_cp ((b0 - 192) * 64 + (b1 - 128)) = Some [b0; b1].
Proof.
  intros H0 H1. set (c := (b0 - 192) * 64 + (b1 - 128)).
  assert (Hc : 128 <= c < 2048) by (subst c; lia).
  assert (Hq : c / 64 = b0 - 192) by (subst c; arith).
  assert (Hr : c mod 64 = b1 - 128) by (subst c; arith).
  unfold utf8_encode_cp.
  destruct (Z.ltb_spec c 0); [lia|]. destruct (Z.ltb_spec c 128); [lia|].
  destruct (Z.ltb_spec c 2048); [|lia].
  rewrite Hq, Hr. do 3 f_equal; lia.
Qed.

Lemma utf8_encode_cp_3 b0 b1 b2 :
  224 <= b0 <= 239 -> 128 <= b1 <= 191 -> 128 <= b2 <= 191 ->
  let c := (b0 - 224) * 4096 + (b1 - 128) * 64 + (b2 - 128) in
  2048 <= c -> ~ (55296 <= c <= 57343) ->
  utf8_encode_cp c = Some [b0; b1; b2].
Proof.
  intros H0 H1 H2 c Hlo Hsur.
  assert (Hc : c < 65536) by (subst c; lia).
  assert (Hq : c / 4096 = b0 - 224) by (subst c; arith).
  assert (Hm : (c / 64) mod 64 = b1 - 128) by (subst c; arith).
  assert (Hr : c mod 64 = b2 - 128) by (subst c; arith).
  unfold utf8_encode_cp.
  destruct (Z.ltb_spec c 0); [lia|]. destruct (Z.ltb_spec c 128); [lia|].
  destruct (Z.ltb_spec c 2048); [lia|]. destruct (Z.ltb_spec c 65536); [|lia].
  rewrite Hq, Hm, Hr.
  destruct (Z.leb_spec 55296 c), (Z.leb_spec c 57343); cbn [andb];
    try lia; do 4 f_equal; lia.
Qed.

Lemma utf8_encode_cp_4 b0 b1 b2 b3 :
  240 <= b0 <= 244 -> 128 <= b1 <= 191 -> 128 <= b2 <= 191 -> 128 <= b3 <= 191 ->
  let c := (b0 - 240) * 262144 + (b1 - 128) * 4096 + (b2 - 128) * 64 + (b3 - 128) in
  65536 <= c < 1114112 ->
  utf8_encode_cp c = Some [b0; b1; b2; b3].
Proof.
  intros H0 H1 H2 H3 c Hc.
  assert (Hq : c / 262144 = b0 - 240) by (subst c; arith).
  assert (Hm1 : (c / 4096) mod 64 = b1 - 128) by (subst c; arith).
  assert (Hm2 : (c / 64) mod 64 = b2 - 128) by (subst c; arith).
  assert (Hr : c mod 64 = b3 - 128) by (subst c; arith).
  unfold utf8_encode_cp.
  destruct (Z.ltb_spec c 0); [lia|]. destruct (Z.ltb_spec c 128); [lia|].
  destruct (Z.ltb_spec c 2048); [lia|]. destruct (Z.ltb_spec c 65536); [lia|].
  destruct (Z.ltb_spec c 1114112); [|lia].
  rewrite Hq, Hm1, Hm2, Hr. do 5 f_equal; lia.
Qed.

Ltac prop_of_bool :=
  repeat match goal with
    | H : _ && _ = true |- _ => apply andb_prop in H as [? ?]
    | H : negb _ = true |- _ => apply negb_true_iff in H
    | H : is_cont _ = true |- _ => unfold is_cont in H
    | H : (_ <=? _) = true |- _ => apply Z.leb_le in H
    | H : (_ <? _) = true |- _ => apply Z.ltb_lt in H
    | H : (_ <=? _) && (_ <=? _) = false |- _ =>
        apply andb_false_iff in H as [H|H]; apply Z.leb_gt in H
    end.

Lemma cons_opt_Some c o s :
  cons_opt c o = Some s -> exists s', o = Some s' /\ s = c :: s'.
Proof. destruct o as [s'|]; [|discriminate]. intros H. inversion H. eauto. Qed.

Lemma utf8_encode_decode_len n bs s :
  (length bs <= n)%nat -> utf8_decode bs = Some s -> utf8_encode s = Some bs.
Proof.
  revert bs s. induction n as [|n IH]; intros bs s Hlen H.
  - destruct bs; [|cbn in Hlen; lia]. inversion H. reflexivity.
  - destruct bs as [|b0 r0]; [inversion H; reflexivity|].
    rewrite utf8_decode_unfold in H. cbn [length] in Hlen.
    destruct ((0 <=? b0) && (b0 <? 128)) eqn:E1.
    { apply cons_opt_Some in H as (s' & Hs' & ->).
      prop_of_bool; cbn [utf8_encode]; rewrite utf8_encode_cp_1 by lia;
        rewrite (IH r0 s') by (auto; lia); reflexivity. }
    destruct ((194 <=? b0) && (b0 <=? 223)) eqn:E2.
    { destruct r0 as [|b1 r1]; [discriminate|].
      destruct (is_cont b1) eqn:C1; [|discriminate].
      apply cons_opt_Some in H as (s' & Hs' & ->). cbn [length] in Hlen.
      prop_of_bool; cbn [utf8_encode]; rewrite utf8_encode_cp_2 by lia;
        rewrite (IH r1 s') by (auto; lia); reflexivity. }
    destruct ((224 <=? b0) && (b0 <=? 239)) eqn:E3.
    { destruct r0 as [|b1 [|b2 r2]]; try discriminate. cbv zeta in H.
      destruct (is_cont b1 && is_cont b2
                && (2048 <=? (b0 - 224) * 4096 + (b1 - 128) * 64 + (b2 - 128))
                && negb ((55296 <=? (b0 - 224) * 4096 + (b1 - 128) * 64 + (b2 - 128))
                         && ((b0 - 224) * 4096 + (b1 - 128) * 64 + (b2 - 128) <=? 57343)))
        eqn:C; [|discriminate].
      apply cons_opt_Some in H as (s' & Hs' & ->).
      apply andb_prop in C as [C Csur]. apply negb_true_iff in Csur.
      cbn [length] in Hlen.
      prop_of_bool; cbn [utf8_encode]; rewrite utf8_encode_cp_3 by lia;
        rewrite (IH r2 s') by (auto; lia); reflexivity. }
    destruct ((240 <=? b0) && (b0 <=? 244)) eqn:E4; [|discriminate].
    destruct r0 as [|b1 [|b2 [|b3 r3]]]; try discriminate. cbv zeta in H.
    destruct (is_cont b1 && is_cont b2 && is_cont b3
              && (65536 <=? (b0 - 240) * 262144 + (b1 - 128) * 4096
                            + (b2 - 128) * 64 + (b3 - 128))
              && ((b0 - 240) * 262144 + (b1 - 128) * 4096
                  + (b2 - 128) * 64 + (b3 - 128) <? 1114112))
      eqn:C; [|discriminate].
    apply cons_opt_Some in H as (s' & Hs' & ->). cbn [length] in Hlen.
    prop_of_bool; cbn [utf8_encode]; rewrite utf8_encode_cp_4 by lia;
      rewrite (IH r3 s') by (auto; lia); reflexivity.
Qed.

(** [str.encode] undoes [bytes.decode]: valid UTF-8 has one spelling. *)
Lemma utf8_encode_decode bs s :
  utf8_decode bs = Some s -> utf8_encode s = Some bs.
Proof. apply (utf8_encode_decode_len (length bs)). lia. Qed.

Lemma utf8_decode_bytes bs s : utf8_decode bs = Some s -> Forall is_byte bs.
Proof.
  intros H. apply utf8_encode_decode in H. eapply utf8_encode_bytes; eauto.
Qed.

(** ** More on the token codec *)

Lemma hexval_hex_upper c : hexval (hex_upper c) = hexval c.
Proof.
  unfold hex_upper.
  destruct ((97 <=? c) && (c <=? 102)) eqn:E; [|reflexivity].
  apply andb_prop in E as [E1 E2]. apply Z.leb_le in E1, E2.
  unfold hexval. split_cmp; cbn [andb]; try lia; f_equal; lia.
Qed.

Lemma is_ascii_space_hex_upper c :
  is_ascii_space (hex_upper c) = is_ascii_space c.
Proof.
  unfold hex_upper.
  destruct ((97 <=? c) && (c <=? 102)) eqn:E; [|reflexivity].
  apply andb_prop in E as [E1 E2]. apply Z.leb_le in E1, E2.
  unfold is_ascii_space. split_cmp; cbn [andb orb]; first [reflexivity | lia].
Qed.

Lemma fromhex_hex_upper_len n s :
  (length s <= n)%nat -> fromhex (map hex_upper s) = fromhex s.
Proof.
  revert s. induction n as [|n IH]; intros s Hlen.
  - destruct s; [reflexivity|cbn in Hlen; lia].
  - destruct s as [|c s']; [reflexivity|]. cbn [map fromhex].
    rewrite is_ascii_space_hex_upper, hexval_hex_upper. cbn [length] in Hlen.
    destruct (is_ascii_space c); [apply IH; lia|].
    destruct (hexval c); [|reflexivity].
    destruct s' as [|d s'']; [reflexivity|]. cbn [map].
    rewrite hexval_hex_upper. cbn [length] in Hlen.
    rewrite (IH s'') by lia. reflexivity.
Qed.

(** [parse_token] does not tell the two letter cases of a digit
    apart: a token and its upper-case spelling decode alike, and the
    guard treats them alike. *)
Theorem parse_token_ignores_letter_case (db : Database) (token : pystr) :
  parse_token (map hex_upper token) = parse_token token
  /\ guard_token db (map hex_upper token) = guard_token db token.
Proof.
  assert (H : parse_token (map hex_upper token) = parse_token token).
  { unfold parse_token, parse_token_try.
    rewrite (fromhex_hex_upper_len (length token)) by lia. reflexivity. }
  split; [exact H|]. unfold guard_token. rewrite H. reflexivity.
Qed.

(** [parse_token] returns a pair exactly for the strings that
    [bytes.fromhex] turns into the UTF-8 bytes of [role:email], with no
    [:] in the role. *)
Theorem parse_token_accepts_iff (token role email : pystr) :
  parse_token token = Return (mkPayload role email) <->
  exists bs,
    fromhex token = Some bs
    /\ utf8_decode bs = Some (role ++ COLON :: email)
    /\ ~ In COLON role.
Proof.
  rewrite parse_token_Return. cbn [p_role p_email]. split.
  - intros (bs & decoded & Hf & Hd & -> & Hn). eauto.
  - intros (bs & Hf & Hd & Hn). exists bs, (role ++ COLON :: email). auto.
Qed.

Lemma parse_token_accepts_iff_witness :
  parse_token (lit "723A65") = Return (mkPayload (lit "r") (lit "e")).
Proof.
  apply (parse_token_accepts_iff (lit "723A65") (lit "r") (lit "e")).
  exists [114; 58; 101]. split; [reflexivity|]. split; [reflexivity|solve_notin].
Defined.

Lemma utf8_encode_None s : utf8_encode s = None <-> ~ text s.
Proof.
  split.
  - intros H Ht. destruct (utf8_encode_total s Ht) as [bs Hbs]. congruence.
  - intros H. destruct (utf8_encode s) as [bs|] eqn:E; [|reflexivity].
    exfalso. apply H. eapply utf8_encode_scalar; eauto.
Qed.

Lemma text_app_colon r e : text (r ++ COLON :: e) <-> text r /\ text e.
Proof.
  unfold text. rewrite Forall_app. split.
  - intros [Hr He]. inversion He; subst. auto.
  - intros [Hr He]. split; [exact Hr|]. constructor; [|exact He].
    left. unfold COLON. lia.
Qed.

(** [issue_token] returns a token exactly when the text of the role
    and the e-mail hold Unicode scalar values only; on a lone
    surrogate, or any other value [str.encode] refuses, it raises
    [UnicodeEncodeError], and it raises nothing else. *)
Theorem issue_token_returns_iff (email : pystr) (role : pyval) :
  ((exists T, issue_token email role = Return T)
   <-> text (py_str role) /\ text email)
  /\ (issue_token email role = Raise UnicodeEncodeError
      <-> ~ (text (py_str role) /\ text email))
  /\ (forall e, issue_token email role = Raise e -> e = UnicodeEncodeError).
Proof.
  unfold issue_token. rewrite <- text_app_colon.
  destruct (utf8_encode (py_str role ++ COLON :: email)) as [bs|] eqn:E.
  - pose proof (utf8_encode_scalar _ _ E) as Ht. split; [|split].
    + split; [auto|eauto].
    + split; [discriminate|]. intros H. contradiction.
    + discriminate.
  - apply utf8_encode_None in E. split; [|split].
    + split; [intros [T HT]; discriminate|]. intros H. contradiction.
    + split; auto.
    + intros e H. inversion H. reflexivity.
Qed.

Lemma issue_token_returns_iff_witness :
  issue_token [55357] (VStr (lit "admin")) = Raise UnicodeEncodeError.
Proof.
  apply (issue_token_returns_iff [55357] (VStr (lit "admin"))).
  intros [_ H]. inversion H as [|? ? Hc _]; subst.
  unfold is_scalar in Hc. lia.
Defined.

Lemma hex_injective bs1 bs2 :
  Forall is_byte bs1 -> Forall is_byte bs2 -> hex bs1 = hex bs2 -> bs1 = bs2.
Proof.
  intros H1 H2 H. apply fromhex_hex in H1, H2. congruence.
Qed.

Lemma issue_token_raw email role T :
  issue_token email role = Return T ->
  exists bs, fromhex T = Some bs
             /\ utf8_decode bs = Some (py_str role ++ COLON :: email).
Proof.
  intros H. apply issue_token_Return in H as (bs & Hbs & ->). exists bs. split.
  - apply fromhex_hex. eapply utf8_encode_bytes; eauto.
  - apply utf8_decode_encode. exact Hbs.
Qed.

(** Two pairs that get the same token have the same text [role:email];
    when neither role holds a [:], the roles and the e-mails are
    equal. *)
Theorem issue_token_injective (email1 email2 : pystr) (role1 role2 : pyval) (T : pystr) :
  issue_token email1 role1 = Return T ->
  issue_token email2 role2 = Return T ->
  py_str role1 ++ COLON :: email1 = py_str role2 ++ COLON :: email2
  /\ (~ In COLON (py_str role1) -> ~ In COLON (py_str role2) ->
      py_str role1 = py_str role2 /\ email1 = email2).
Proof.
  intros H1 H2.
  assert (Hraw : py_str role1 ++ COLON :: email1 = py_str role2 ++ COLON :: email2).
  { apply issue_token_raw in H1 as (bs1 & Hf1 & Hd1).
    apply issue_token_raw in H2 as (bs2 & Hf2 & Hd2). congruence. }
  split; [exact Hraw|]. intros Hn1 Hn2.
  pose proof (parse_issue_token _ _ _ Hn1 H1) as P1.
  pose proof (parse_issue_token _ _ _ Hn2 H2) as P2.
  rewrite P1 in P2. inversion P2. auto.
Qed.

Lemma issue_token_injective_witness :
  py_str (VStr (lit "admin")) = py_str (VStr (lit "admin")) /\ alice = alice.
Proof.
  apply (issue_token_injective alice alice (VStr (lit "admin")) (VStr (lit "admin"))
           (token_for alice (lit "admin")));
    first [reflexivity | solve_notin].
Defined.

(** A role that holds a [:] is not recovered: the token for role
    [a:b] and e-mail [c] is the token for role [a] and e-mail [b:c],
    and [parse_token] reads it as the latter. *)
Theorem issue_token_colon_in_role (a b c : pystr) :
  issue_token c (VStr (a ++ COLON :: b)) = issue_token (b ++ COLON :: c) (VStr a)
  /\ (~ In COLON a ->
      forall T, issue_token c (VStr (a ++ COLON :: b)) = Return T ->
                parse_token T = Return (mkPayload a (b ++ COLON :: c))).
Proof.
  assert (H : issue_token c (VStr (a ++ COLON :: b))
              = issue_token (b ++ COLON :: c) (VStr a)).
  { unfold issue_token. cbn [py_str]. rewrite <- app_assoc. reflexivity. }
  split; [exact H|]. intros Hn T HT. rewrite H in HT.
  exact (parse_issue_token _ (VStr a) T Hn HT).
Qed.

Lemma issue_token_colon_in_role_witness :
  parse_token (token_for (lit "c") (lit "a:b"))
  = Return (mkPayload (lit "a") (lit "b:c")).
Proof.
  apply (issue_token_colon_in_role (lit "a") (lit "b") (lit "c"));
    first [reflexivity | solve_notin].
Defined.

Lemma hexval_range c v : hexval c = Some v -> 0 <= v < 16.
Proof.
  unfold hexval. intros H.
  destruct ((48 <=? c) && (c <=? 57)) eqn:E1;
    [inversion H; subst; prop_of_bool; lia|].
  destruct ((97 <=? c) && (c <=? 102)) eqn:E2;
    [inversion H; subst; prop_of_bool; lia|].
  destruct ((65 <=? c) && (c <=? 70)) eqn:E3; [|discriminate].
  inversion H; subst; prop_of_bool; lia.
Qed.

Lemma hexdigit_hexval c v :
  is_lower_hex c = true -> hexval c = Some v -> hexdigit v = c.
Proof.
  unfold is_lower_hex, hexval, hexdigit. intros Hl H.
  destruct ((48 <=? c) && (c <=? 57)) eqn:E1.
  { inversion H; subst. prop_of_bool;
      destruct (Z.ltb_spec (c - 48) 10); lia. }
  destruct ((97 <=? c) && (c <=? 102)) eqn:E2; [|discriminate].
  inversion H; subst. prop_of_bool;
    destruct (Z.ltb_spec (c - 87) 10); lia.
Qed.

Lemma is_lower_hex_hexdigit n : 0 <= n < 16 -> is_lower_hex (hexdigit n) = true.
Proof.
  intros H. unfold is_lower_hex, hexdigit.
  split_cmp; cbn [andb orb]; first [reflexivity | lia].
Qed.

Lemma is_lower_hex_not_ascii_space c :
  is_lower_hex c = true -> is_ascii_space c = false.
Proof.
  unfold is_lower_hex, is_ascii_space. intros H.
  split_cmp; cbn [andb orb] in *; first [reflexivity | discriminate | lia].
Qed.

Lemma hex_lower bs : Forall is_byte bs -> lower_hex_text (hex bs).
Proof.
  induction 1 as [|b bs Hb _ IH]; cbn [hex]; [constructor|].
  unfold is_byte in Hb.
  repeat constructor; [apply is_lower_hex_hexdigit; arith ..|exact IH].
Qed.

Lemma length_hex bs : length (hex bs) = (2 * length bs)%nat.
Proof. induction bs as [|b bs IH]; cbn [hex length]; lia. Qed.

Lemma hex_fromhex_len n T bs :
  (length T <= n)%nat -> lower_hex_text T -> fromhex T = Some bs -> hex bs = T.
Proof.
  revert T bs. induction n as [|n IH]; intros T bs Hlen Hl H.
  - destruct T; [|cbn in Hlen; lia]. inversion H. reflexivity.
  - destruct T as [|c T']; [inversion H; reflexivity|].
    inversion Hl as [|? ? Hc Hl']; subst. cbn [fromhex] in H.
    rewrite (is_lower_hex_not_ascii_space c Hc) in H.
    destruct (hexval c) as [top|] eqn:Ht; [|discriminate].
    destruct T' as [|d T'']; [discriminate|].
    inversion Hl' as [|? ? Hd Hl'']; subst.
    destruct (hexval d) as [bot|] eqn:Hb; [|discriminate].
    destruct (fromhex T'') as [rest|] eqn:Hr; [|discriminate].
    inversion H; subst. cbn [hex]. cbn [length] in Hlen.
    pose proof (hexval_range _ _ Ht). pose proof (hexval_range _ _ Hb).
    replace ((top * 16 + bot) / 16) with top by arith.
    replace ((top * 16 + bot) mod 16) with bot by arith.
    rewrite (hexdigit_hexval c top Hc Ht), (hexdigit_hexval d bot Hd Hb).
    rewrite (IH T'' rest) by (auto; lia). reflexivity.
Qed.

Lemma utf8_encode_length s bs :
  utf8_encode s = Some bs -> (length s <= length bs)%nat.
Proof.
  revert bs. induction s as [|c s IH]; intros bs H; cbn [utf8_encode] in H.
  - cbn. lia.
  - destruct (utf8_encode_cp c) as [b|] eqn:Hc; [|discriminate].
    destruct (utf8_encode s) as [r|]; [|discriminate].
    inversion H; subst. specialize (IH r eq_refl).
    rewrite length_app. cbn [length].
    assert (1 <= length b)%nat; [|lia].
    unfold utf8_encode_cp in Hc.
    repeat match type of Hc with
           | (if ?x then _ else _) = _ => destruct x
           end; inversion Hc; cbn; lia.
Qed.

(** What an issued token looks like: lower-case hexadecimal digits
    only, two for each byte of the encoded text, so its length is even
    and at least twice the number of characters of [role:email]; it
    holds no whitespace. *)
Theorem issued_token_shape (email : pystr) (role : pyval) (T : pystr) :
  issue_token email role = Return T ->
  lower_hex_text T
  /\ no_space T
  /\ Nat.Even (length T)
  /\ (2 * (length (py_str role) + 1 + length email) <= length T)%nat.
Proof.
  intros H. destruct (issue_token_word _ _ _ H) as [Hns _].
  apply issue_token_Return in H as (bs & Hbs & ->).
  split; [apply hex_lower; eapply utf8_encode_bytes; eauto|].
  split; [exact Hns|]. rewrite length_hex. split.
  - exists (length bs). lia.
  - apply utf8_encode_length in Hbs. rewrite length_app in Hbs.
    cbn [length] in Hbs. lia.
Qed.

Lemma issued_token_shape_witness :
  lower_hex_text (token_for alice (lit "admin"))
  /\ no_space (token_for alice (lit "admin"))
  /\ Nat.Even (length (token_for alice (lit "admin")))
  /\ (2 * (length (py_str (VStr (lit "admin"))) + 1 + length alice)
      <= length (token_for alice (lit "admin")))%nat.
Proof.
  apply (issued_token_shape alice (VStr (lit "admin"))). reflexivity.
Defined.

(** Decoding loses nothing but spelling: when [parse_token] accepts a
    string, [issue_token] applied to the decoded e-mail and role
    returns the lower-case spelling of the same bytes, which decodes
    to the same pair; for a string already written in lower-case
    digits it returns that very string. *)
Theorem parse_then_issue (T : pystr) (payload : TokenPayload) :
  parse_token T = Return payload ->
  exists bs,
    fromhex T = Some bs
    /\ issue_token (p_email payload) (VStr (p_role payload)) = Return (hex bs)
    /\ parse_token (hex bs) = Return payload
    /\ (lower_hex_text T -> hex bs = T).
Proof.
  intros H. pose proof H as H'.
  apply parse_token_Return in H' as (bs & decoded & Hf & Hd & -> & Hn).
  exists bs. pose proof (utf8_encode_decode _ _ Hd) as He.
  assert (Hi : issue_token (p_email payload) (VStr (p_role payload))
               = Return (hex bs)).
  { unfold issue_token. cbn [py_str]. rewrite He. reflexivity. }
  split; [exact Hf|]. split; [exact Hi|]. split.
  - rewrite (parse_issue_token (p_email payload) (VStr (p_role payload))
               (hex bs) Hn Hi).
    destruct payload; reflexivity.
  - intros Hl. exact (hex_fromhex_len (length T) T bs (le_n _) Hl Hf).
Qed.

Lemma parse_then_issue_witness :
  exists bs,
    fromhex (lit "72 3A65") = Some bs
    /\ issue_token (lit "e") (VStr (lit "r")) = Return (hex bs)
    /\ parse_token (hex bs) = Return (mkPayload (lit "r") (lit "e"))
    /\ (lower_hex_text (lit "72 3A65") -> hex bs = lit "72 3A65").
Proof.
  apply (parse_then_issue (lit "72 3A65") (mkPayload (lit "r") (lit "e"))).
  reflexivity.
Defined.

(** ** More on the access guard *)

Lemma split_ws_from_nil cur s :
  split_ws_from cur s = [] ->
  cur = [] /\ Forall (fun c => is_space c = true) s.
Proof.
  revert cur. induction s as [|c s IH]; intros cur H; cbn [split_ws_from] in H.
  - destruct cur; [auto|discriminate].
  - destruct (is_space c) eqn:Hc.
    + destruct cur; [|discriminate]. destruct (IH [] H) as [_ Hs]. auto.
    + destruct (IH (c :: cur) H) as [Hcur _]. discriminate.
Qed.

Lemma last_split_ws_None header :
  last (split_ws header) = None <-> Forall (fun c => is_space c = true) header.
Proof.
  split.
  - intros H. apply last_None in H. apply (split_ws_from_nil [] header H).
  - intros H. unfold split_ws. rewrite (split_ws_from_all_space _ H). reflexivity.
Qed.

(** A token fresh from [issue_token] is taken out of the header
    intact, alone or behind any text that ends in one whitespace
    character. *)
Theorem issued_token_survives_header
    (db : Database) (email : pystr) (role : pyval) (T scheme : pystr) (w : codepoint) :
  issue_token email role = Return T ->
  is_space w = true ->
  get_current_user db (Some (scheme ++ w :: T)) = guard_token db T
  /\ get_current_user db (Some T) = guard_token db T.
Proof.
  intros HT Hw. destruct (issue_token_word _ _ _ HT) as [Hns Hne]. split.
  - apply get_current_user_guard_token. apply last_split_ws_bearer; assumption.
  - apply get_current_user_guard_token. rewrite (split_ws_word T Hns Hne).
    reflexivity.
Qed.

Lemma issued_token_survives_header_witness :
  get_current_user (Some [alice_doc])
    (Some (lit "Bearer" ++ 9 :: token_for alice (lit "admin")))
  = guard_token (Some [alice_doc]) (token_for alice (lit "admin"))
  /\ get_current_user (Some [alice_doc]) (Some (token_for alice (lit "admin")))
     = guard_token (Some [alice_doc]) (token_for alice (lit "admin")).
Proof.
  apply (issued_token_survives_header (Some [alice_doc]) alice (VStr (lit "admin")));
    reflexivity.
Defined.

(** When the guard ends in an exception that is no HTTP error.
    [IndexError]: exactly for a non-empty header made of whitespace
    only.  [TypeError]: exactly when no database is configured and the
    last segment of the header decodes.  Apart from these two it
    raises one of its three 401 errors and nothing else. *)
Theorem get_current_user_crashes_iff (db : Database) (authorization : option pystr) :
  (get_current_user db authorization = Raise IndexError
   <-> exists c header,
         authorization = Some (c :: header)
         /\ Forall (fun x => is_space x = true) (c :: header))
  /\ (get_current_user db authorization = Raise TypeError
      <-> db = None
          /\ exists header token payload,
               authorization = Some header
               /\ last (split_ws header) = Some token
               /\ parse_token token = Return payload)
  /\ (forall e,
        get_current_user db authorization = Raise e ->
        e = IndexError \/ e = TypeError \/ e = HTTP MissingCredentials
        \/ e = HTTP InvalidToken \/ e = HTTP Unauthorized).
Proof.
  destruct authorization as [[|c header]|].
  1,3: (split; [|split];
        [split; [discriminate|intros (? & ? & ? & ?); discriminate]
        |split; [discriminate
                |intros (_ & h & t & p & Ha & Hl & _); inversion Ha; subst;
                 discriminate]
        |intros e H; inversion H; auto]).
  destruct (last (split_ws (c :: header))) as [token|] eqn:Hl.
  2:{ pose proof (proj1 (last_split_ws_None _) Hl) as Hb.
      assert (E : get_current_user db (@Some pystr (c :: header)) = Raise IndexError)
        by exact (get_current_user_blank db c header Hb).
      rewrite E.
      split; [|split].
      - split; [eauto|reflexivity].
      - split; [discriminate|].
        intros (_ & h & t & p & Ha & Hl' & _). inversion Ha; subst. congruence.
      - intros e H. inversion H. auto. }
  assert (Hnb : ~ Forall (fun x => is_space x = true) (c :: header)).
  { intros Hb. apply last_split_ws_None in Hb. congruence. }
  rewrite (get_current_user_guard_token _ _ _ Hl). unfold guard_token.
  destruct (parse_token_cases token) as [Hp|[payload Hp]]; rewrite Hp; cbn [bind].
  { split; [|split].
    - split; [discriminate|]. intros (? & ? & Ha & Hb). inversion Ha; subst.
      contradiction.
    - split; [discriminate|].
      intros (_ & h & t & p & Ha & Hl' & Hp'). inversion Ha; subst.
      rewrite Hl in Hl'. inversion Hl'; subst. congruence.
    - intros e H. inversion H. auto. }
  destruct db as [users|]; cbn [bind db_user].
  2:{ split; [|split].
      - split; [discriminate|]. intros (? & ? & Ha & Hb). inversion Ha; subst.
        contradiction.
      - split; [|reflexivity]. intros _. split; [reflexivity|].
        exists (c :: header), token, payload. auto.
      - intros e H. inversion H. auto. }
  assert (Hres : forall e,
            match find_one users (p_email payload) with
            | Some u =>
                if not_user (Some u) || negb (is_True (dict_get u "is_active"))
                then Raise (HTTP Unauthorized)
                else Return (mkCurrent (p_email payload) (p_role payload)
                               (dict_get_or u "name" (VStr (p_email payload))))
            | None => Raise (HTTP Unauthorized)
            end = Raise e -> e = HTTP Unauthorized).
  { intros e. destruct (find_one users (p_email payload)) as [u|];
      [destruct (_ || _)|]; intros H; inversion H; reflexivity. }
  split; [|split].
  - split; [intros H; apply Hres in H; discriminate|].
    intros (? & ? & Ha & Hb). inversion Ha; subst. contradiction.
  - split; [intros H; apply Hres in H; discriminate|].
    intros [Hd _]. discriminate.
  - intros e H. apply Hres in H. auto.
Qed.

Lemma get_current_user_crashes_iff_witness :
  get_current_user None (Some (lit "Bearer 723a65")) = Raise TypeError.
Proof.
  apply (get_current_user_crashes_iff None (Some (lit "Bearer 723a65"))).
  split; [reflexivity|].
  exists (lit "Bearer 723a65"), (lit "723a65"), (mkPayload (lit "r") (lit "e")).
  repeat split.
Defined.

(** ** More on the authenticator *)

(** [login] returns a response exactly when a record is found for the
    e-mail, its password is the supplied string, its [is_active] is
    absent or truthy, its role and name are strings or absent, the
    e-mail passes the response model and the token can be encoded;
    the response then carries the validated e-mail, the stored name
    (the e-mail when absent), the stored role ([employee] when absent)
    and the token for the request's e-mail and that role. *)
Theorem login_returns_iff
    (EmailStr : pystr -> option pystr) (users : list Document)
    (payload : LoginRequest) (resp : LoginResponse) :
  login EmailStr (Some users) payload = Return resp <->
  exists u,
    find_one users (lr_email payload) = Some u
    /\ u !! "password"%string = Some (VStr (lr_password payload))
    /\ truthy (dict_get_or u "is_active" (VBool true)) = true
    /\ dict_get_or u "role" (VStr (lit "employee")) = VStr (resp_role resp)
    /\ dict_get_or u "name" (VStr (lr_email payload)) = VStr (resp_name resp)
    /\ EmailStr (lr_email payload) = Some (resp_email resp)
    /\ issue_token (lr_email payload) (VStr (resp_role resp))
       = Return (resp_token resp).
Proof.
  split.
  - intros H. destruct (find_one users (lr_email payload)) as [u|] eqn:Hf.
    + exists u. split; [reflexivity|]. exact (login_Return _ _ _ _ _ Hf H).
    + unfold login in H. rewrite Hf in H. discriminate.
  - intros (u & Hf & Hp & Ha & Hr & Hn & He & Ht).
    rewrite (login_found _ _ _ _ Hf).
    apply dict_get_password, ne_str_false in Hp. rewrite Hp, Ha, Hr, Hn, Ht.
    cbn [negb bind]. unfold LoginResponse_new. rewrite He.
    destruct resp; reflexivity.
Qed.

Lemma login_returns_iff_witness :
  login simple_EmailStr (Some [alice_doc]) alice_request
  = Return (mkLoginResponse alice (lit "Alice") (lit "admin")
              (token_for alice (lit "admin"))).
Proof.
  apply (login_returns_iff simple_EmailStr [alice_doc] alice_request).
  exists alice_doc. repeat split.
Defined.

Lemma falsy_field u k :
  truthy (dict_get_or u k (VBool true)) = false
  <-> exists v, u !! k = Some v /\ truthy v = false.
Proof.
  unfold dict_get_or. destruct (u !! k) as [v|]; cbn.
  - split; [eauto|]. intros (v' & Hv' & Ht). inversion Hv'; subst. exact Ht.
  - split; [discriminate|]. intros (v' & Hv' & _). discriminate.
Qed.

Lemma login_tail_no_http EmailStr email name role e :
  (do token <- issue_token email role;
   LoginResponse_new EmailStr email name role token) <> Raise (HTTP e).
Proof.
  unfold issue_token.
  destruct (utf8_encode (py_str role ++ COLON :: email)); [|discriminate].
  cbn [bind]. unfold LoginResponse_new.
  destruct (EmailStr email); [|discriminate].
  destruct name, role; discriminate.
Qed.

(** With the right password, [login] answers [AccountInactive]
    exactly when the record has an [is_active] field whose value is
    falsy: [False], but also [None], [0] or the empty string; a record
    without the field is never inactive. *)
Theorem login_inactive_iff
    (EmailStr : pystr -> option pystr) (users : list Document)
    (payload : LoginRequest) (u : Document) :
  find_one users (lr_email payload) = Some u ->
  u !! "password"%string = Some (VStr (lr_password payload)) ->
  (login EmailStr (Some users) payload = Raise (HTTP AccountInactive)
   <-> exists v, u !! "is_active"%string = Some v /\ truthy v = false).
Proof.
  intros Hf Hp. rewrite (login_found _ _ _ _ Hf).
  apply dict_get_password, ne_str_false in Hp. rewrite Hp.
  rewrite <- falsy_field.
  destruct (truthy (dict_get_or u "is_active" (VBool true))); cbn [negb].
  - split; [|discriminate]. intros H. exfalso.
    exact (login_tail_no_http _ _ _ _ _ H).
  - split; reflexivity.
Qed.

Lemma login_inactive_iff_witness :
  login simple_EmailStr (Some [<["is_active"%string := VNone]> alice_doc])
    alice_request
  = Raise (HTTP AccountInactive).
Proof.
  apply (login_inactive_iff simple_EmailStr
           [<["is_active"%string := VNone]> alice_doc] alice_request
           (<["is_active"%string := VNone]> alice_doc));
    [reflexivity|reflexivity|].
  exists VNone. split; reflexivity.
Defined.

(** A [role] or [name] field that is present but holds [None] is not
    replaced by the default: the login passes the three checks and
    then fails to build its response, ending in [ValidationError]
    and not in an HTTP error. *)
Theorem login_null_role_or_name
    (EmailStr : pystr -> option pystr) (users : list Document)
    (payload : LoginRequest) (u : Document) :
  find_one users (lr_email payload) = Some u ->
  u !! "password"%string = Some (VStr (lr_password payload)) ->
  truthy (dict_get_or u "is_active" (VBool true)) = true ->
  text (lr_email payload) ->
  text (py_str (dict_get_or u "role" (VStr (lit "employee")))) ->
  u !! "role"%string = Some VNone \/ u !! "name"%string = Some VNone ->
  login EmailStr (Some users) payload = Raise ValidationError.
Proof.
  intros Hf Hp Ha Hte Htr Hnull. rewrite (login_found _ _ _ _ Hf).
  apply dict_get_password, ne_str_false in Hp. rewrite Hp, Ha. cbn [negb].
  destruct (issue_token_total (lr_email payload) _ Htr Hte) as [token ->].
  cbn [bind]. unfold LoginResponse_new.
  destruct (EmailStr (lr_email payload)); [|reflexivity].
  destruct Hnull as [Hr|Hn].
  - assert (E : dict_get_or u "role" (VStr (lit "employee")) = VNone)
      by (unfold dict_get_or; rewrite Hr; reflexivity).
    rewrite E. destruct (dict_get_or u "name" _); reflexivity.
  - assert (E : dict_get_or u "name" (VStr (lr_email payload)) = VNone)
      by (unfold dict_get_or; rewrite Hn; reflexivity).
    rewrite E. reflexivity.
Qed.

Lemma login_null_role_or_name_witness :
  login simple_EmailStr (Some [<["role"%string := VNone]> alice_doc]) alice_request
  = Raise ValidationError.
Proof.
  apply (login_null_role_or_name simple_EmailStr
           [<["role"%string := VNone]> alice_doc] alice_request
           (<["role"%string := VNone]> alice_doc));
    first [reflexivity | solve_text | (left; reflexivity)].
Defined.

(** Login, then the guard.  The token of a successful login, sent as
    [Bearer <token>] to the same store, decodes to the request's
    e-mail and the response's role when that role has no [:]; the
    guard then returns that e-mail, that role and the response's name
    if the stored [is_active] is exactly [True], and refuses with
    [Unauthorized] for every other value that [login] let through. *)
Theorem login_then_guard
    (EmailStr : pystr -> option pystr) (users : list Document)
    (payload : LoginRequest) (u : Document) (resp : LoginResponse) :
  find_one users (lr_email payload) = Some u ->
  login EmailStr (Some users) payload = Return resp ->
  ~ In COLON (resp_role resp) ->
  parse_token (resp_token resp)
  = Return (mkPayload (resp_role resp) (lr_email payload))
  /\ get_current_user (Some users) (Some (lit "Bearer " ++ resp_token resp))
     = if is_True (dict_get u "is_active")
       then Return (mkCurrent (lr_email payload) (resp_role resp)
                      (VStr (resp_name resp)))
       else Raise (HTTP Unauthorized).
Proof.
  intros Hf H Hn.
  destruct (login_Return _ _ _ _ _ Hf H) as (_ & _ & _ & Hname & _ & Ht).
  pose proof (parse_issue_token _ (VStr (resp_role resp)) _ Hn Ht) as Hp.
  cbn [py_str] in Hp. split; [exact Hp|].
  destruct (issue_token_word _ _ _ Ht) as [Hns Hne].
  rewrite get_current_user_guard_token with (token := resp_token resp).
  - rewrite (guard_token_found users _ _ u Hp Hf). cbn [p_email p_role].
    rewrite Hname. reflexivity.
  - change (lit "Bearer " ++ resp_token resp)
      with (lit "Bearer" ++ SPACE :: resp_token resp).
    apply last_split_ws_bearer; auto.
Qed.

Lemma login_then_guard_witness :
  parse_token (token_for alice (lit "admin"))
  = Return (mkPayload (lit "admin") alice)
  /\ get_current_user (Some [<["is_active"%string := VInt 1]> alice_doc])
       (Some (lit "Bearer " ++ token_for alice (lit "admin")))
     = Raise (HTTP Unauthorized).
Proof.
  refine (login_then_guard simple_EmailStr
            [<["is_active"%string := VInt 1]> alice_doc] alice_request
            (<["is_active"%string := VInt 1]> alice_doc)
            (mkLoginResponse alice (lit "Alice") (lit "admin")
               (token_for alice (lit "admin"))) _ _ _);
    first [reflexivity | solve_notin].
Defined.

(** ** The store: lookups, inserts and seeding *)

Lemma find_one_app users more email :
  find_one (users ++ more) email =
    match find_one users email with
    | Some u => Some u
    | None => find_one more email
    end.
Proof.
  induction users as [|d users IH]; cbn [app find_one]; [reflexivity|].
  case_bool_decide; [reflexivity|exact IH].
Qed.

Lemma count_documents_find_one users email :
  count_documents users email = O <-> find_one users email = None.
Proof.
  induction users as [|d users IH]; cbn [count_documents find_one];
    [split; reflexivity|].
  case_bool_decide; [split; discriminate|exact IH].
Qed.

Lemma User_Return email password name role active doc :
  User email password name role active = Return doc ->
  doc !! "email"%string = Some (VStr email)
  /\ doc !! "password"%string = Some (VStr password)
  /\ doc !! "name"%string = Some (VStr name)
  /\ doc !! "role"%string = Some (VStr role)
  /\ doc !! "is_active"%string = Some (VBool active)
  /\ (role = lit "admin" \/ role = lit "employee").
Proof.
  unfold User. intros H.
  destruct ((1 <=? Z.of_nat (length email)) && (3 <=? Z.of_nat (length password))
            && (bool_decide (role = lit "admin")
                || bool_decide (role = lit "employee"))) eqn:E; [|discriminate].
  inversion H; subst. apply andb_prop in E as [_ E].
  repeat split; try reflexivity.
  apply orb_prop in E as [E|E]; apply bool_decide_eq_true in E; auto.
Qed.

Lemma create_document_fresh users doc email :
  find_one users email = None ->
  doc !! "email"%string = Some (VStr email) ->
  create_document users doc = Return (users ++ [doc]).
Proof.
  intros Hf Hd. unfold create_document. rewrite Hd.
  assert (E : existsb (fun d => bool_decide (d !! "email"%string = Some (VStr email)))
                users = false).
  { induction users as [|d users IH]; [reflexivity|]. cbn [find_one] in Hf.
    cbn [existsb]. destruct (bool_decide (d !! "email"%string = Some (VStr email)));
      [discriminate|]. exact (IH Hf). }
  rewrite E. reflexivity.
Qed.

Lemma create_document_duplicate users doc email u :
  find_one users email = Some u ->
  doc !! "email"%string = Some (VStr email) ->
  create_document users doc = Raise DuplicateKeyError.
Proof.
  intros Hf Hd. unfold create_document. rewrite Hd.
  assert (E : existsb (fun d => bool_decide (d !! "email"%string = Some (VStr email)))
                users = true).
  { induction users as [|d users IH]; [discriminate|]. cbn [find_one] in Hf.
    cbn [existsb]. destruct (bool_decide (d !! "email"%string = Some (VStr email)));
      [reflexivity|]. exact (IH Hf). }
  rewrite E. reflexivity.
Qed.

Lemma seed_one_eq users email password name role doc :
  User email password name role true = Return doc ->
  seed_one users email password name role =
    Return (users ++ (if (count_documents users email =? 0)%nat
                      then [doc] else [])).
Proof.
  intros H. unfold seed_one. rewrite H.
  destruct (Nat.eqb_spec (count_documents users email) 0) as [E|E]; cbn [bind].
  - apply count_documents_find_one in E.
    apply (create_document_fresh users doc email E).
    apply (User_Return _ _ _ _ _ _ H).
  - rewrite app_nil_r. reflexivity.
Qed.

Lemma count_documents_app users more email :
  count_documents (users ++ more) email
  = (count_documents users email + count_documents more email)%nat.
Proof.
  induction users as [|d users IH]; cbn [app count_documents]; [reflexivity|].
  case_bool_decide; rewrite IH; reflexivity.
Qed.

Lemma seed_users_eq users :
  seed_users (Some users) =
    Return (Some (users
                  ++ (if (count_documents users (lit "admin") =? 0)%nat
                      then [admin_doc] else [])
                  ++ (if (count_documents users (lit "karyawan") =? 0)%nat
                      then [karyawan_doc] else []))).
Proof.
  unfold seed_users.
  rewrite (seed_one_eq users (lit "admin") (lit "admin") (lit "Administrator")
             (lit "admin") admin_doc eq_refl).
  cbn [bind].
  rewrite (seed_one_eq _ (lit "karyawan") (lit "karyawan") (lit "Karyawan")
             (lit "employee") karyawan_doc eq_refl).
  cbn [bind].
  rewrite count_documents_app.
  assert (E : count_documents
                (if (count_documents users (lit "admin") =? 0)%nat
                 then [admin_doc] else []) (lit "karyawan") = O)
    by (destruct (_ =? _)%nat; reflexivity).
  rewrite E, Nat.add_0_r, <- app_assoc. reflexivity.
Qed.

(** [seed_users] never raises, and running it again changes nothing:
    the store it returns is returned unchanged by a second run. *)
Theorem seed_users_idempotent (db : Database) :
  exists db', seed_users db = Return db' /\ seed_users db' = Return db'.
Proof.
  destruct db as [users|]; [|exists None; split; reflexivity].
  rewrite seed_users_eq. eexists. split; [reflexivity|].
  rewrite seed_users_eq. rewrite !count_documents_app.
  assert (A1 : count_documents [admin_doc] (lit "admin") = 1%nat) by reflexivity.
  assert (K1 : count_documents [karyawan_doc] (lit "karyawan") = 1%nat)
    by reflexivity.
  set (ca := count_documents users (lit "admin")).
  set (ck := count_documents users (lit "karyawan")).
  assert (Ea : (ca + (count_documents (if (ca =? 0)%nat then [admin_doc] else [])
                        (lit "admin")
                      + count_documents (if (ck =? 0)%nat then [karyawan_doc] else [])
                          (lit "admin")) =? 0)%nat = false).
  { apply Nat.eqb_neq. destruct (Nat.eqb_spec ca 0) as [E|E]; [|lia].
    rewrite A1. lia. }
  assert (Ek : (ck + (count_documents (if (ca =? 0)%nat then [admin_doc] else [])
                        (lit "karyawan")
                      + count_documents (if (ck =? 0)%nat then [karyawan_doc] else [])
                          (lit "karyawan")) =? 0)%nat = false).
  { apply Nat.eqb_neq. destruct (Nat.eqb_spec ck 0) as [E|E]; [|lia].
    rewrite K1. lia. }
  rewrite Ea, Ek, !app_nil_r. reflexivity.
Qed.

(** What seeding does to lookups.  The stored documents stay in
    place, at most two are appended; an e-mail that had a record keeps
    that very record (a changed password or a cleared [is_active] of
    [admin] or [karyawan] is not reset); [admin] and [karyawan], when
    they had none, get the seeded record; no other e-mail gains one. *)
Theorem seed_users_lookups (users : list Document) :
  exists added,
    seed_users (Some users) = Return (Some (users ++ added))
    /\ (length added <= 2)%nat
    /\ forall email,
         find_one (users ++ added) email =
           match find_one users email with
           | Some u => Some u
           | None =>
               if bool_decide (email = lit "admin") then Some admin_doc
               else if bool_decide (email = lit "karyawan") then Some karyawan_doc
               else None
           end.
Proof.
  rewrite seed_users_eq. eexists. split; [reflexivity|]. split.
  - rewrite length_app.
    destruct (_ =? _)%nat, (_ =? _)%nat; cbn; lia.
  - intros email. rewrite find_one_app.
    destruct (find_one users email) as [u|] eqn:Hf; [reflexivity|].
    rewrite find_one_app.
    assert (Hadm : forall e, bool_decide (admin_doc !! "email"%string = Some (VStr e))
                             = bool_decide (e = lit "admin")).
    { intros e. change (admin_doc !! "email"%string) with (Some (VStr (lit "admin"))).
      apply bool_decide_ext. split; [intros H; inversion H; auto|intros ->; auto]. }
    assert (Hkar : forall e, bool_decide (karyawan_doc !! "email"%string = Some (VStr e))
                             = bool_decide (e = lit "karyawan")).
    { intros e.
      change (karyawan_doc !! "email"%string) with (Some (VStr (lit "karyawan"))).
      apply bool_decide_ext. split; [intros H; inversion H; auto|intros ->; auto]. }
    case_bool_decide as Ea.
    + subst email. apply count_documents_find_one in Hf. rewrite Hf.
      reflexivity.
    + assert (E1 : find_one (if (count_documents users (lit "admin") =? 0)%nat
                             then [admin_doc] else []) email = None).
      { destruct (_ =? _)%nat; [|reflexivity]. cbn [find_one]. rewrite Hadm.
        rewrite bool_decide_eq_false_2 by exact Ea. reflexivity. }
      rewrite E1. case_bool_decide as Ek.
      * subst email. apply count_documents_find_one in Hf. rewrite Hf.
        reflexivity.
      * destruct (count_documents users (lit "karyawan") =? 0)%nat;
          [|reflexivity].
        cbn [find_one]. rewrite Hkar.
        rewrite bool_decide_eq_false_2 by exact Ek. reflexivity.
Qed.

(** ** Registration, then login, then the guard *)

(** Registration, login, guard, for an e-mail that is a valid
    address.  Take a record built by [User(...)] and inserted under an
    e-mail that had no record, and a login request whose typed address
    the [EmailStr] validator turns into that e-mail; suppose the
    validator also accepts the e-mail itself, as the response model
    needs.  The insert succeeds.  If the record is active,
    [POST /auth/login] with the typed address and the password returns
    the record's name and role and a token, and the guard accepts that
    token and answers with the stored e-mail, the role and the name;
    if the record was created inactive, the login is refused with
    [AccountInactive].  An e-mail the validator rejects, such as that
    of the seeded administrator, is outside this statement. *)
Theorem registered_user_can_authenticate
    (EmailStr : pystr -> option pystr) (users : list Document)
    (typed email password name role validated : pystr) (active : bool)
    (doc : Document) :
  User email password name role active = Return doc ->
  find_one users email = None ->
  text email ->
  EmailStr typed = Some email ->
  EmailStr email = Some validated ->
  exists users',
    create_document users doc = Return users'
    /\ if active then
         exists token,
           post_auth_login EmailStr (Some users') typed password
           = Return (mkLoginResponse validated name role token)
           /\ get_current_user (Some users') (Some (lit "Bearer " ++ token))
              = Return (mkCurrent email role (VStr name))
       else
         post_auth_login EmailStr (Some users') typed password
         = Raise (HTTP AccountInactive).
Proof.
  intros HU Hnone Hte Hty He.
  destruct (User_Return _ _ _ _ _ _ HU) as (Dm & Dp & Dn & Dr & Da & Hrole).
  exists (users ++ [doc]).
  split; [exact (create_document_fresh users doc email Hnone Dm)|].
  assert (Hf : find_one (users ++ [doc]) email = Some doc).
  { rewrite find_one_app, Hnone. cbn [find_one].
    rewrite bool_decide_eq_true_2 by exact Dm. reflexivity. }
  assert (Htr : text role) by (destruct Hrole as [->| ->]; solve_text).
  assert (Hn : ~ In COLON role) by (destruct Hrole as [->| ->]; solve_notin).
  assert (Hpost : post_auth_login EmailStr (Some (users ++ [doc])) typed password
                  = login EmailStr (Some (users ++ [doc]))
                      (mkLoginRequest email password)).
  { unfold post_auth_login, LoginRequest_new. rewrite Hty. reflexivity. }
  rewrite Hpost.
  destruct active.
  - destruct (login_success EmailStr (users ++ [doc])
                (mkLoginRequest email password) doc validated name role)
      as (token & Ht & Hl); auto.
    + unfold dict_get_or. rewrite Da. reflexivity.
    + unfold dict_get_or. rewrite Dr. reflexivity.
    + unfold dict_get_or. rewrite Dn. reflexivity.
    + exists token. split; [exact Hl|].
      pose proof (parse_issue_token email (VStr role) token Hn Ht) as Hp.
      destruct (issue_token_word _ _ _ Ht) as [Hns Hne].
      rewrite get_current_user_guard_token with (token := token).
      * rewrite (guard_token_found _ _ _ doc Hp Hf).
        unfold dict_get, dict_get_or. cbn [p_email p_role]. rewrite Da, Dn.
        reflexivity.
      * change (lit "Bearer " ++ token) with (lit "Bearer" ++ SPACE :: token).
        apply last_split_ws_bearer; auto.
  - rewrite (login_found EmailStr (users ++ [doc])
               (mkLoginRequest email password) doc Hf).
    assert (Hp : ne_str (dict_get doc "password") password = false)
      by (apply ne_str_false, dict_get_password; exact Dp).
    cbn [lr_password lr_email]. rewrite Hp.
    unfold dict_get_or. rewrite Da. reflexivity.
Qed.

Lemma registered_user_can_authenticate_witness :
  exists users',
    create_document [admin_doc] alice_doc = Return users'
    /\ exists token,
         post_auth_login simple_EmailStr (Some users') alice (lit "secret")
         = Return (mkLoginResponse alice (lit "Alice") (lit "admin") token)
         /\ get_current_user (Some users') (Some (lit "Bearer " ++ token))
            = Return (mkCurrent alice (lit "admin") (VStr (lit "Alice"))).
Proof.
  refine (registered_user_can_authenticate simple_EmailStr [admin_doc]
            alice alice (lit "secret") (lit "Alice") (lit "admin") alice true
            alice_doc _ _ _ _ _);
    first [reflexivity | solve_text].
Defined.

(** ** Listing users *)

Lemma lookup_map {A B} (f : A -> B) (l : list A) (i : nat) :
  map f l !! i = f <$> (l !! i).
Proof.
  revert i. induction l as [|x l IH]; intros [|i]; cbn; auto.
Qed.

Lemma redact_lookup it k :
  redact it !! k =
    if bool_decide (k = "_id"%string)
    then Some (VStr (py_str (dict_get it "_id")))
    else if bool_decide (k = "password"%string) then None
    else it !! k.
Proof.
  unfold redact, dict_get. case_bool_decide as Hid.
  - subst k. rewrite lookup_insert_eq, lookup_delete_ne by discriminate.
    reflexivity.
  - rewrite lookup_insert_ne by congruence. case_bool_decide as Hpw.
    + subst k. apply lookup_delete_eq.
    + apply lookup_delete_ne. congruence.
Qed.

(** What [list_users] hands out.  It answers only a caller whose role
    is exactly [admin]; the answer holds the first hundred documents
    of the store in order, [count] is their number, no item has a
    [password] field, every item has a string under [_id], and every
    other field is the stored one. *)
Theorem list_users_redacts
    (users : list Document) (current : CurrentUser) (listing : UserListing) :
  list_users users current = Return listing ->
  cu_role current = lit "admin"
  /\ l_count listing = length (l_items listing)
  /\ l_count listing = Nat.min 100 (length users)
  /\ forall i,
       match l_items listing !! i with
       | Some it =>
           (i < 100)%nat
           /\ it !! "password"%string = None
           /\ (exists s, it !! "_id"%string = Some (VStr s))
           /\ exists d, users !! i = Some d
                        /\ forall k, k <> "password"%string -> k <> "_id"%string ->
                                     it !! k = d !! k
       | None => (100 <= i)%nat \/ users !! i = None
       end.
Proof.
  unfold list_users, list_users_guard, get_documents.
  case_bool_decide as Hr; [|discriminate]. cbn [bind]. intros H.
  inversion H; subst; clear H. cbn [l_count l_items].
  split; [exact Hr|]. split; [reflexivity|].
  split; [rewrite length_map, length_take; reflexivity|].
  intros i. rewrite lookup_map.
  destruct (take 100 users !! i) as [d|] eqn:Hd; cbn [fmap option_fmap option_map].
  - apply lookup_take_Some in Hd as [Hd Hi]. split; [exact Hi|].
    split; [rewrite redact_lookup; reflexivity|].
    split; [rewrite redact_lookup; eauto|].
    exists d. split; [exact Hd|]. intros k Hp Hid. rewrite redact_lookup.
    rewrite !bool_decide_eq_false_2 by assumption. reflexivity.
  - destruct (Nat.le_gt_cases 100 i) as [Hi|Hi]; [left; exact Hi|right].
    destruct (users !! i) as [d|] eqn:Hu; [|reflexivity].
    assert (Hd' : take 100 users !! i = Some d)
      by (apply lookup_take_Some; auto).
    congruence.
Qed.

Lemma list_users_redacts_witness :
  l_count (mkListing 2 [redact admin_doc; redact karyawan_doc])
  = Nat.min 100 (length [admin_doc; karyawan_doc]).
Proof.
  refine (proj1 (proj2 (proj2
            (list_users_redacts [admin_doc; karyawan_doc]
               (mkCurrent (lit "x") (lit "admin") VNone)
               (mkListing 2 [redact admin_doc; redact karyawan_doc]) _)))).
  reflexivity.
Defined.

Lemma get_admin_users_Return
    (db : Database) (authorization : option pystr) (listing : UserListing) :
  get_admin_users db authorization = Return listing <->
  exists users current,
    db = Some users
    /\ get_current_user db authorization = Return current
    /\ cu_role current = lit "admin"
    /\ listing = mkListing (length (map redact (take 100 users)))
                   (map redact (take 100 users)).
Proof.
  unfold get_admin_users. split.
  - destruct (get_current_user db authorization) as [current|] eqn:Hg;
      [|discriminate].
    cbn [bind]. destruct db as [users|]; [|discriminate]. cbn [bind db_user].
    unfold list_users, list_users_guard, get_documents.
    case_bool_decide as Hr; [|discriminate]. cbn [bind]. intros H.
    inversion H. exists users, current. auto.
  - intros (users & current & -> & Hg & Hr & ->). rewrite Hg. cbn [bind db_user].
    unfold list_users, list_users_guard, get_documents.
    rewrite bool_decide_eq_true_2 by exact Hr. reflexivity.
Qed.

(** [GET /admin/users] answers with a listing exactly when the guard
    returns an identity whose role is [admin]; the listing is then the
    redacted head of the store. *)
Theorem get_admin_users_returns_iff
    (db : Database) (authorization : option pystr) (listing : UserListing) :
  get_admin_users db authorization = Return listing <->
  exists users current,
    db = Some users
    /\ get_current_user db authorization = Return current
    /\ cu_role current = lit "admin"
    /\ listing = mkListing (length (map redact (take 100 users)))
                   (map redact (take 100 users)).
Proof. exact (get_admin_users_Return db authorization listing). Qed.

Lemma get_admin_users_returns_iff_witness :
  get_admin_users seeded_db (Some (lit "Bearer 61646d696e3a61646d696e"))
  = Return (mkListing 2 [redact admin_doc; redact karyawan_doc]).
Proof.
  apply (get_admin_users_returns_iff seeded_db
           (Some (lit "Bearer 61646d696e3a61646d696e"))
           (mkListing 2 [redact admin_doc; redact karyawan_doc])).
  exists [admin_doc; karyawan_doc],
    (mkCurrent (lit "admin") (lit "admin") (VStr (lit "Administrator"))).
  repeat split.
Defined.

(** The token is not protected: for the e-mail of any stored record
    whose [is_active] is [True], [issue_token] applied to that e-mail
    and a role of one's choosing gives a token the guard accepts with
    that role, whatever role the record stores; with the role [admin]
    it opens the user listing.  No password is involved. *)
Theorem self_made_token_accepted
    (users : list Document) (email role : pystr) (u : Document) :
  find_one users email = Some u ->
  u !! "is_active"%string = Some (VBool true) ->
  text email -> text role -> ~ In COLON role ->
  exists T,
    issue_token email (VStr role) = Return T
    /\ get_current_user (Some users) (Some (lit "Bearer " ++ T))
       = Return (mkCurrent email role (dict_get_or u "name" (VStr email)))
    /\ (role = lit "admin" ->
        get_admin_users (Some users) (Some (lit "Bearer " ++ T))
        = Return (mkListing (length (map redact (take 100 users)))
                    (map redact (take 100 users)))).
Proof.
  intros Hf Ha Hte Htr Hn.
  destruct (issue_token_total email (VStr role) Htr Hte) as [T HT].
  exists T. split; [exact HT|].
  pose proof (parse_issue_token email (VStr role) T Hn HT) as Hp.
  destruct (issue_token_word _ _ _ HT) as [Hns Hne].
  assert (Hg : get_current_user (Some users) (@Some pystr (lit "Bearer " ++ T))
               = Return (mkCurrent email role (dict_get_or u "name" (VStr email)))).
  { rewrite get_current_user_guard_token with (token := T).
    - rewrite (guard_token_found users T _ u Hp Hf).
      apply is_True_lookup in Ha. rewrite Ha. reflexivity.
    - change (lit "Bearer " ++ T) with (lit "Bearer" ++ SPACE :: T).
      apply last_split_ws_bearer; auto. }
  split; [exact Hg|]. intros ->.
  apply get_admin_users_Return. eexists users, _.
  split; [reflexivity|]. split; [exact Hg|]. split; reflexivity.
Qed.

Lemma self_made_token_accepted_witness :
  exists T,
    issue_token (lit "karyawan") (VStr (lit "admin")) = Return T
    /\ get_current_user seeded_db (Some (lit "Bearer " ++ T))
       = Return (mkCurrent (lit "karyawan") (lit "admin")
                   (dict_get_or karyawan_doc "name" (VStr (lit "karyawan"))))
    /\ (lit "admin" = lit "admin" ->
        get_admin_users seeded_db (Some (lit "Bearer " ++ T))
        = Return (mkListing
                    (length (map redact (take 100 [admin_doc; karyawan_doc])))
                    (map redact (take 100 [admin_doc; karyawan_doc])))).
Proof.
  refine (self_made_token_accepted [admin_doc; karyawan_doc]
            (lit "karyawan") (lit "admin") karyawan_doc _ _ _ _ _);
    first [reflexivity | solve_text | solve_notin].
Defined.
